(** * getgauge.parser_redbaron: step discovery and refactoring over a
      full-syntax tree

    A shallow embedding of [RedbaronPythonFile] (src/getgauge/parser_redbaron.py).
    The RedBaron tree the class works on is modelled by the attributes the
    code reads and writes: node types, decorators, call arguments, literal
    values, parameter lists, bounding boxes and the text each node dumps to. *)

From Stdlib Require Import ZArith String Ascii List Bool Lia DecimalString.
From stdpp Require Import base list strings.
From stdpp Require Import gmap.
Import ListNotations.

Set Warnings "-register-all".
Local Open Scope string_scope.
Local Open Scope list_scope.

(** ** Python strings *)

Module PyStr.

(** The double quote and the line feed, written by code point. *)
Definition dq : string := String "034"%char EmptyString.
Definition nl : string := String "010"%char EmptyString.

(** A string literal as it stands in the source: the text between quotes. *)
Definition quoted (s : string) : string := dq +:+ s +:+ dq.

(** [sep.join(parts)] *)
Fixpoint join (sep : string) (parts : list string) : string :=
  match parts with
  | [] => ""
  | [p] => p
  | p :: rest => p +:+ sep +:+ join sep rest
  end.

(** [s.replace("", new)]: [new] goes before every character and at the end. *)
Fixpoint replace_empty (new s : string) : string :=
  match s with
  | EmptyString => new
  | String c rest => new +:+ String c (replace_empty new rest)
  end.

(** [s.replace(old, new)] for a non-empty [old], scanning left to right;
    [skip] counts the characters of a match still to be dropped. *)
Fixpoint replace_from (skip : nat) (old new s : string) : string :=
  match s with
  | EmptyString => EmptyString
  | String c rest =>
      match skip with
      | S k => replace_from k old new rest
      | O =>
          if String.prefix old s
          then new +:+ replace_from (String.length old - 1) old new rest
          else String c (replace_from 0 old new rest)
      end
  end.

(** [s.replace(old, new)]: every non-overlapping occurrence is replaced. *)
Definition replace (old new s : string) : string :=
  match old with
  | EmptyString => replace_empty new s
  | _ => replace_from 0 old new s
  end.

(** [s.find(sub)]: the first index of [sub], or -1. *)
Definition find (sub s : string) : Z :=
  match String.index 0 sub s with
  | Some i => Z.of_nat i
  | None => (-1)%Z
  end.

(** [str(n)] for a natural number. *)
Definition of_nat (n : nat) : string := NilZero.string_of_uint (Nat.to_uint n).

(** [list(enumerate(l))] *)
Fixpoint enumerate_from {A : Type} (i : nat) (l : list A) : list (nat * A) :=
  match l with
  | [] => []
  | x :: rest => (i, x) :: enumerate_from (S i) rest
  end.

Definition enumerate {A : Type} (l : list A) : list (nat * A) := enumerate_from 0 l.

End PyStr.

(** ** Exceptions, logging and generators *)

Inductive ExceptionClass :=
| ValueError | SyntaxError | AttributeError | IndexError | TypeError
| IOError | ParsingError.

Record Exception := { exn_class : ExceptionClass; exn_msg : string }.

Definition AttributeError_ (msg : string) : Exception :=
  {| exn_class := AttributeError; exn_msg := msg |}.
Definition IndexError_ (msg : string) : Exception :=
  {| exn_class := IndexError; exn_msg := msg |}.
Definition TypeError_ (msg : string) : Exception :=
  {| exn_class := TypeError; exn_msg := msg |}.

(** A computation that may raise and that writes to the [logging] sink:
    its outcome and the error messages it logged, oldest first. *)
Definition Out (A : Type) : Type := (Exception + A) * list string.

Definition ret {A : Type} (a : A) : Out A := (inr a, []).
Definition raise {A : Type} (e : Exception) : Out A := (inl e, []).
Definition logging_error (msg : string) : Out unit := (inr tt, [msg]).

Definition bind {A B : Type} (m : Out A) (k : A -> Out B) : Out B :=
  match m with
  | (inl e, l) => (inl e, l)
  | (inr a, l) => let '(r, l') := k a in (r, l ++ l')
  end.

Declare Scope out_scope.
Delimit Scope out_scope with out.
Notation "x <- m ;; k" := (bind m (fun x => k))
  (at level 100, m at next level, right associativity) : out_scope.
Notation "m ;;; k" := (bind m (fun _ => k))
  (at level 100, right associativity) : out_scope.

(** What a consumer sees of a generator it runs to the end: the items
    yielded, in order, and the exception that stopped it, if any. *)
Record Generated (A : Type) := { yielded : list A; raised : option Exception }.
Arguments yielded {A} _.
Arguments raised {A} _.

Definition yield_ {A : Type} (a : A) (g : Generated A) : Generated A :=
  {| yielded := a :: yielded g; raised := raised g |}.

(** ** Python values, as [to_python] returns them *)

Inductive PyValue :=
| PyNone
| PyBool (b : bool)
| PyInt (n : Z)
| PyString (s : string)
| PyList (l : list PyValue)
| PyTuple (l : list PyValue)
| PyDict (l : list (PyValue * PyValue)).

(** [v == s] for a string [s]. *)
Definition py_eq_str (v : PyValue) (s : string) : bool :=
  match v with
  | PyString t => String.eqb t s
  | _ => false
  end.

(** [s in l] *)
Definition py_in (s : string) (l : list PyValue) : bool :=
  existsb (fun v => py_eq_str v s) l.

(** [l.index(s)], for [s in l]. *)
Fixpoint py_index (s : string) (l : list PyValue) : nat :=
  match l with
  | [] => 0
  | v :: rest => if py_eq_str v s then 0 else S (py_index s rest)
  end.

(** Truth value of what [_step_decorator_args] returns. *)
Definition truthy (v : PyValue) : bool :=
  match v with
  | PyNone => false
  | PyBool b => b
  | PyInt n => negb (Z.eqb n 0)
  | PyString s => negb (String.eqb s "")
  | PyList l | PyTuple l => negb (Nat.eqb (length l) 0)
  | PyDict l => negb (Nat.eqb (length l) 0)
  end.

(** [isinstance(step, six.string_types + (list,))] *)
Definition is_str_or_list (v : PyValue) : bool :=
  match v with
  | PyString _ | PyList _ => true
  | _ => false
  end.

(** ** The RedBaron tree *)

Record Position := { line : Z; column : Z }.
Record BoundingBox := { top_left : Position; bottom_right : Position }.

(** A comma-separated node list: each item with the formatting that
    follows it (the comma and its spaces, or nothing after the last). *)
Abbreviation CommaProxyList A := (list (A * string)).

Definition dumps_items {A : Type} (dumps : A -> string) (l : CommaProxyList A) : string :=
  fold_right (fun it acc => dumps (fst it) +:+ snd it +:+ acc) "" l.

(** The value of a call argument, or an item of a list literal.
    - [StringNode]: a string literal; [value] is its source text, quotes
      included.
    - [ListNode]: a list literal; [lead] is the formatting after the
      opening bracket.
    - [AtomNode]: any other expression, kept as its text.
    [to_python] is the outcome of the node's [to_python()] and [box] its
    [absolute_bounding_box], absent when access to it raises
    AttributeError. *)
Inductive ValueNode :=
| StringNode (value : string)
    (to_python : Exception + PyValue) (box : option BoundingBox)
| ListNode (lead : string) (items : list (ValueNode * string))
    (to_python : Exception + PyValue) (box : option BoundingBox)
| AtomNode (type : string) (text : string)
    (to_python : Exception + PyValue) (box : option BoundingBox).

Definition to_python (n : ValueNode) : Exception + PyValue :=
  match n with
  | StringNode _ py _ | ListNode _ _ py _ | AtomNode _ _ py _ => py
  end.

Definition value_box (n : ValueNode) : option BoundingBox :=
  match n with
  | StringNode _ _ b | ListNode _ _ _ b | AtomNode _ _ _ b => b
  end.

Fixpoint dumps_value (n : ValueNode) : string :=
  match n with
  | StringNode v _ _ => v
  | ListNode lead items _ _ =>
      "[" +:+ lead +:+
      (fix go (l : list (ValueNode * string)) : string :=
         match l with
         | [] => ""
         | it :: rest => dumps_value (fst it) +:+ snd it +:+ go rest
         end) items +:+ "]"
  | AtomNode _ text _ _ => text
  end.

(** One argument of a call: [target] is the text of a keyword prefix
    (empty for a positional argument), [arg_value] the [value] node. *)
Record CallArgumentNode := { target : string; arg_value : ValueNode }.

Definition dumps_call_argument (a : CallArgumentNode) : string :=
  target a +:+ dumps_value (arg_value a).

(** The call of a decorator: [call_value] is its argument list. *)
Record CallNode := { call_lead : string; call_value : CommaProxyList CallArgumentNode }.

Definition dumps_call (c : CallNode) : string :=
  "(" +:+ call_lead c +:+ dumps_items dumps_call_argument (call_value c) +:+ ")".

(** A decorator line: [name] is [decorator.name.value], [dotted] the rest
    of a dotted name, [call] the call (absent for a bare decorator) and
    [dec_end] the line end and indentation after it. *)
Record DecoratorNode := {
  name : string;
  dotted : string;
  call : option CallNode;
  dec_end : string
}.

Definition dumps_decorator (d : DecoratorNode) : string :=
  "@" +:+ name d +:+ dotted d +:+
  match call d with Some c => dumps_call c | None => "" end +:+ dec_end d.

(** A parameter of a function definition: [param_name] is [name.value];
    [param_star] is a leading star or double star, [param_rest] the
    annotation and default as written. *)
Record DefArgumentNode := {
  param_star : string;
  param_name : string;
  param_rest : string
}.

Definition dumps_def_argument (a : DefArgumentNode) : string :=
  param_star a +:+ param_name a +:+ param_rest a.

(** A function definition. Its text is the decorators, [def_head] (the
    keyword), the name, [def_open] (up to and including the opening
    parenthesis), the parameters and [def_tail] (the closing parenthesis,
    the colon and the body). *)
Record DefNode := {
  decorators : list DecoratorNode;
  def_head : string;
  def_name : string;
  def_open : string;
  arguments : CommaProxyList DefArgumentNode;
  arguments_box : option BoundingBox;
  def_tail : string;
  def_box : option BoundingBox
}.

Definition dumps_arguments (l : CommaProxyList DefArgumentNode) : string :=
  dumps_items dumps_def_argument l.

Definition dumps_decorators (l : list DecoratorNode) : string :=
  fold_right (fun d acc => dumps_decorator d +:+ acc) "" l.

Definition dumps_def (f : DefNode) : string :=
  dumps_decorators (decorators f) +:+ def_head f +:+ def_name f +:+ def_open f +:+
  dumps_arguments (arguments f) +:+ def_tail f.

(** Top-level nodes other than function definitions, kept as text. *)
Inductive OtherType :=
| EndlNode | CommentNode | ClassNode | ImportNode | FromImportNode
| AssignmentNode | StatementNode.

Inductive Node :=
| Def (f : DefNode)
| Other (t : OtherType) (text : string).

(** [node.type] *)
Definition node_type (n : Node) : string :=
  match n with
  | Def _ => "def"
  | Other EndlNode _ => "endl"
  | Other CommentNode _ => "comment"
  | Other ClassNode _ => "class"
  | Other ImportNode _ => "import"
  | Other FromImportNode _ => "from_import"
  | Other AssignmentNode _ => "assignment"
  | Other StatementNode _ => "atomtrailers"
  end.

Definition dumps_node (n : Node) : string :=
  match n with
  | Def f => dumps_def f
  | Other _ text => text
  end.

(** [RedBaron.dumps()]: the text of the whole tree. *)
Definition dumps (t : list Node) : string :=
  fold_right (fun n acc => dumps_node n +:+ acc) "" t.

(** Modelled from the spec: the [Span] tuple of [getgauge.internal], a
    text region by start line, start column, end line and end column. *)
Record Span := { startLine : Z; startCol : Z; endLine : Z; endCol : Z }.

(** ** References into the live tree

    The class hands nodes around by reference and writes through them.  A
    reference is the path of the node from the root. *)
Inductive NodeRef :=
| FuncRef (i : nat)
    (* the function definition [py_tree[i]] *)
| StepRef (i j : nat) (item : option nat)
    (* [py_tree[i].decorators[j].call.value[0].value], or its item [k] *)
| ArgumentsRef (i : nat).
    (* [py_tree[i].arguments] *)

Definition func_at (t : list Node) (i : nat) : option DefNode :=
  match t !! i with
  | Some (Def f) => Some f
  | _ => None
  end.

(** [decorator.call.value[0].value] *)
Definition first_arg (d : DecoratorNode) : Out ValueNode :=
  match call d with
  | None => raise (AttributeError_ "'NoneType' object has no attribute 'value'")
  | Some c =>
      match call_value c with
      | [] => raise (IndexError_ "list index out of range")
      | a :: _ => ret (arg_value (fst a))
      end
  end.

Definition node_at (t : list Node) (r : NodeRef) : option ValueNode :=
  match r with
  | StepRef i j item =>
      f ← func_at t i;
      d ← decorators f !! j;
      c ← call d;
      a ← head (call_value c);
      match item with
      | None => Some (arg_value (fst a))
      | Some k =>
          match arg_value (fst a) with
          | ListNode _ items _ _ => fst <$> items !! k
          | _ => None
          end
      end
  | _ => None
  end.

(** [node.absolute_bounding_box], absent when the access raises
    AttributeError. *)
Definition absolute_bounding_box (t : list Node) (r : NodeRef) : option BoundingBox :=
  match r with
  | FuncRef i => f ← func_at t i; def_box f
  | StepRef _ _ _ => n ← node_at t r; value_box n
  | ArgumentsRef i => f ← func_at t i; arguments_box f
  end.

(** ** Writing through a reference *)

(** [node.value], for a node whose value is a string; only string
    literals have one. *)
Definition string_value (n : ValueNode) : option string :=
  match n with
  | StringNode v _ _ => Some v
  | _ => None
  end.

(** [node.value = v] on a string literal.  [to_python] and the boxes are
    kept as they were recorded: the positions in this tree are those of
    the text as parsed.  RedBaron computes a position from the current
    text, so after an assignment that changes the length of a line or the
    number of lines it reports other positions for what follows. *)
Definition set_string_value (v : string) (n : ValueNode) : ValueNode :=
  match n with
  | StringNode _ py b => StringNode v py b
  | _ => n
  end.

Definition on_item (k : nat) (g : ValueNode -> ValueNode) (n : ValueNode) : ValueNode :=
  match n with
  | ListNode lead items py b =>
      ListNode lead (alter (fun it => (g (fst it), snd it)) k items) py b
  | _ => n
  end.

Definition on_first_arg (g : ValueNode -> ValueNode) (d : DecoratorNode) : DecoratorNode :=
  match call d with
  | Some {| call_lead := cl; call_value := a :: rest |} =>
      {| name := name d; dotted := dotted d;
         call := Some {| call_lead := cl;
                         call_value :=
                           ({| target := target (fst a); arg_value := g (arg_value (fst a)) |},
                            snd a) :: rest |};
         dec_end := dec_end d |}
  | _ => d
  end.

Definition with_decorators (ds : list DecoratorNode) (f : DefNode) : DefNode :=
  {| decorators := ds; def_head := def_head f; def_name := def_name f;
     def_open := def_open f; arguments := arguments f;
     arguments_box := arguments_box f; def_tail := def_tail f;
     def_box := def_box f |}.

Definition with_arguments (args : CommaProxyList DefArgumentNode) (f : DefNode) : DefNode :=
  {| decorators := decorators f; def_head := def_head f; def_name := def_name f;
     def_open := def_open f; arguments := args;
     arguments_box := arguments_box f; def_tail := def_tail f;
     def_box := def_box f |}.

Definition on_def (g : DefNode -> DefNode) (n : Node) : Node :=
  match n with
  | Def f => Def (g f)
  | Other _ _ => n
  end.

(** [step.value = v] for the node a [StepRef] points to. *)
Definition set_value (t : list Node) (r : NodeRef) (v : string) : list Node :=
  match r with
  | StepRef i j item =>
      let g := match item with
               | None => set_string_value v
               | Some k => on_item k (set_string_value v)
               end in
      alter (on_def (fun f => with_decorators (alter (on_first_arg g) j (decorators f)) f)) i t
  | _ => t
  end.

(** The parameter list RedBaron builds when [func.arguments] is assigned
    the text [', '.join(names)]: one bare parameter per name, each but the
    last followed by a comma and a space. *)
Fixpoint arguments_of_names (names : list string) : CommaProxyList DefArgumentNode :=
  match names with
  | [] => []
  | [n] => [({| param_star := ""; param_name := n; param_rest := "" |}, "")]
  | n :: rest =>
      ({| param_star := ""; param_name := n; param_rest := "" |}, ", ")
        :: arguments_of_names rest
  end.

(** [py_tree[i].arguments = ', '.join(names)] *)
Definition set_arguments (t : list Node) (i : nat) (names : list string) : list Node :=
  alter (on_def (with_arguments (arguments_of_names names))) i t.

(** ** RedbaronPythonFile *)

Record RedbaronPythonFile := { file_path : string; py_tree : list Node }.

Definition with_tree (self : RedbaronPythonFile) (t : list Node) : RedbaronPythonFile :=
  {| file_path := file_path self; py_tree := t |}.

(** The closure [calculate_span] of [_span_for_node]: it holds the node
    and computes the span when called, on the tree as it is then. *)
Inductive SpanThunk := calculate_span_closure (node : NodeRef).

(** Modelled from the spec: the [FunctionSteps] record of
    [getgauge.internal], with the fields static_loader.py reads; [span] is
    a span or the deferred computation of one. *)
Record FunctionSteps := {
  steps : PyValue;
  func : string;
  fs_file_path : string;
  span : Span + SpanThunk
}.

Definition sentinel : Span :=
  {| startLine := 0; startCol := 0; endLine := 0; endCol := 0 |}.

(** [calculate_span()] inside [_span_for_node] *)
Definition calculate_span (t : list Node) (node : NodeRef) : Span :=
  match absolute_bounding_box t node with
  | Some box =>
      {| startLine := line (top_left box);
         startCol := Z.max 0 (column (top_left box) - 1);
         endLine := line (bottom_right box);
         endCol := Z.max 0 (column (bottom_right box)) |}
  | None => sentinel
  end.

(** [_span_for_node(node, lazy)]: the closure itself when [lazy], its
    result otherwise. *)
Definition _span_for_node (self : RedbaronPythonFile) (node : NodeRef) (lazy : bool)
  : if lazy then SpanThunk else Span :=
  match lazy return (if lazy then SpanThunk else Span) with
  | true => calculate_span_closure node
  | false => calculate_span (py_tree self) node
  end.

(** Calling the closure on the tree [t]. *)
Definition call_thunk (t : list Node) (c : SpanThunk) : Span :=
  match c with calculate_span_closure node => calculate_span t node end.

(** The inner loop of [_iter_step_func_decorators]: the first decorator
    named step, with its index. *)
Fixpoint first_step_decorator (j : nat) (decs : list DecoratorNode)
  : option (nat * DecoratorNode) :=
  match decs with
  | [] => None
  | decorator :: rest =>
      if String.eqb (name decorator) "step" then Some (j, decorator)
      else first_step_decorator (S j) rest
  end.

Fixpoint step_func_decorators_from (i : nat) (nodes : list Node)
  : list ((nat * DefNode) * (nat * DecoratorNode)) :=
  match nodes with
  | [] => []
  | node :: rest =>
      let more := step_func_decorators_from (S i) rest in
      if String.eqb (node_type node) "def" then
        match node with
        | Def f =>
            match first_step_decorator 0 (decorators f) with
            | Some jd => ((i, f), jd) :: more
            | None => more
            end
        | Other _ _ => more
        end
      else more
  end.

(** The pairs the generator yields, in source order; each node comes with
    its index in the tree, each decorator with its index in the function. *)
Definition _iter_step_func_decorators (self : RedbaronPythonFile)
  : list ((nat * DefNode) * (nat * DecoratorNode)) :=
  step_func_decorators_from 0 (py_tree self).

Definition msg_one_argument (self : RedbaronPythonFile) : string :=
  "Decorator step accepts only one argument - " +:+ file_path self.

Definition msg_string_or_list (self : RedbaronPythonFile) : string :=
  "Decorator step accepts either a string or a list of strings - " +:+ file_path self.

(** [except (ValueError, SyntaxError)] *)
Definition caught_by_resolver (e : Exception) : bool :=
  match exn_class e with
  | ValueError | SyntaxError => true
  | _ => false
  end.

Local Open Scope out_scope.

Definition _step_decorator_args (self : RedbaronPythonFile) (decorator : DecoratorNode)
  : Out PyValue :=
  match call decorator with
  | None => raise (AttributeError_ "'NoneType' object has no attribute 'value'")
  | Some c =>
      match call_value c with
      | [a] =>
          (* len(args) == 1 *)
          step <- match to_python (arg_value (fst a)) with
                  | inr v => ret v
                  | inl e => if caught_by_resolver e then ret PyNone else raise e
                  end ;;
          if is_str_or_list step then ret step
          else (logging_error (msg_string_or_list self) ;;; ret PyNone)
      | _ =>
          logging_error (msg_one_argument self) ;;; ret PyNone
      end
  end.

Definition finished {A : Type} : Generated A := {| yielded := []; raised := None |}.

Fixpoint iter_steps_loop (self : RedbaronPythonFile)
    (pairs : list ((nat * DefNode) * (nat * DecoratorNode)))
  : Generated FunctionSteps * list string :=
  match pairs with
  | [] => (finished, [])
  | ((i, f), (_, decorator)) :: rest =>
      match _step_decorator_args self decorator with
      | (inl e, l) => ({| yielded := []; raised := Some e |}, l)
      | (inr step, l) =>
          let '(g, l') := iter_steps_loop self rest in
          (if truthy step
           then yield_ {| steps := step; func := def_name f;
                          fs_file_path := file_path self;
                          span := inr (_span_for_node self (FuncRef i) true) |} g
           else g,
           l ++ l')
      end
  end.

(** [iter_steps], run to its end: what it yields, how it ends, and what
    it logs. *)
Definition iter_steps (self : RedbaronPythonFile) : Generated FunctionSteps * list string :=
  iter_steps_loop self (_iter_step_func_decorators self).

(** [arg_node[k]] *)
Definition getitem (arg_node : ValueNode) (i j k : nat) : Out NodeRef :=
  match arg_node with
  | ListNode _ items _ _ =>
      if Nat.ltb k (length items) then ret (StepRef i j (Some k))
      else raise (IndexError_ "list index out of range")
  | _ => raise (TypeError_ "object does not support indexing")
  end.

Fixpoint find_step_loop (self : RedbaronPythonFile) (step_text : string)
    (pairs : list ((nat * DefNode) * (nat * DecoratorNode)))
  : Out (option (NodeRef * nat)) :=
  match pairs with
  | [] => ret None
  | ((i, _), (j, decorator)) :: rest =>
      step <- _step_decorator_args self decorator ;;
      arg_node <- first_arg decorator ;;
      if py_eq_str step step_text then ret (Some (StepRef i j None, i))
      else
        match step with
        | PyList l =>
            if py_in step_text l then
              step_node <- getitem arg_node i j (py_index step_text l) ;;
              ret (Some (step_node, i))
            else find_step_loop self step_text rest
        | _ => find_step_loop self step_text rest
        end
  end.

(** [_find_step_node]: the reference to the literal and the index of its
    function, or [None] for the pair [(None, None)]. *)
Definition _find_step_node (self : RedbaronPythonFile) (step_text : string)
  : Out (option (NodeRef * nat)) :=
  find_step_loop self step_text (_iter_step_func_decorators self).

(** The loop of [refactor_step] that builds [new_params]. *)
Fixpoint new_params_loop (old_params : CommaProxyList DefArgumentNode)
    (moves : list (nat * Z)) : Exception + list string :=
  match moves with
  | [] => inr []
  | (i, move_from) :: rest =>
      match
        (if (move_from <? 0)%Z then Some ("arg" +:+ PyStr.of_nat (i + 1))
         else (fun p => param_name (fst p)) <$> old_params !! Z.to_nat move_from)
      with
      | None => inl (IndexError_ "list index out of range")
      | Some name =>
          match new_params_loop old_params rest with
          | inl e => inl e
          | inr names => inr (name :: names)
          end
      end
  end.

(** [len(old_params) == len(move_param_from_idx) and
     all(i == v for (i, v) in enumerate(move_param_from_idx))] *)
Definition params_unmoved (old_params : CommaProxyList DefArgumentNode)
    (move_param_from_idx : list Z) : bool :=
  Nat.eqb (length old_params) (length move_param_from_idx)
  && forallb (fun iv => Z.eqb (Z.of_nat (fst iv)) (snd iv))
       (PyStr.enumerate move_param_from_idx).

(** The outcome of [refactor_step]: the list of edits or the exception
    raised, the object afterwards, and the messages logged. *)
Definition Refactored : Type :=
  (Exception + list (Span * string)) * RedbaronPythonFile * list string.

Definition refactor_step (self : RedbaronPythonFile) (old_text new_text : string)
    (move_param_from_idx : list Z) : Refactored :=
  match _find_step_node self old_text with
  | (inl e, l) => (inl e, self, l)
  | (inr None, l) => (inr [], self, l)
  | (inr (Some (step, func_idx)), l) =>
      let step_span : Span := _span_for_node self step false in
      match node_at (py_tree self) step ≫= string_value with
      | None =>
          (* step.value is not a string *)
          (inl (AttributeError_ "value has no attribute 'replace'"), self, l)
      | Some value =>
          let new_value := PyStr.replace old_text new_text value in
          let self1 := with_tree self (set_value (py_tree self) step new_value) in
          let diffs := [(step_span, new_value)] in
          match func_at (py_tree self1) func_idx with
          | None => (inl (AttributeError_ "arguments"), self1, l)
          | Some f =>
              let old_params := arguments f in
              if params_unmoved old_params move_param_from_idx
              then (inr diffs, self1, l)
              else
                let params_span : Span :=
                  _span_for_node self1 (ArgumentsRef func_idx) false in
                match new_params_loop old_params (PyStr.enumerate move_param_from_idx) with
                | inl e => (inl e, self1, l)
                | inr new_params =>
                    let self2 :=
                      with_tree self1 (set_arguments (py_tree self1) func_idx new_params) in
                    (inr (diffs ++
                          [(params_span,
                            dumps_arguments (arguments_of_names new_params))]),
                     self2, l)
                end
          end
      end
  end.

(** [get_code] *)
Definition get_code (self : RedbaronPythonFile) : string := dumps (py_tree self).

(** ** Parsing a file

    [RedBaron] (the constructor of the tree) and [open(...).read()] belong
    to the library and the file system; [parse] is stated over them. *)

Section Parse.

Variable open_read : string -> Exception + string.
Variable RedBaron : string -> Exception + list Node.

Definition marker : string := "<---- here" +:+ PyStr.nl.

(** The handler of [parse]: the message it logs for the exception [ex]. *)
Definition parse_failure_message (file_path : string) (ex : Exception) : string :=
  let msg := exn_msg ex in
  let marker_pos := PyStr.find marker msg in
  let msg := if (0 <? marker_pos)%Z
             then String.substring 0 (Z.to_nat marker_pos + String.length marker) msg
             else msg in
  "Failed to parse " +:+ file_path +:+ ": " +:+ msg.

Definition parse (file_path : string) (content : option string)
  : option RedbaronPythonFile * list string :=
  let failed ex := (None, [parse_failure_message file_path ex]) in
  match
    (match content with
     | None => open_read file_path
     | Some c => inr c
     end)
  with
  | inl ex => failed ex
  | inr content =>
      match RedBaron content with
      | inl ex => failed ex
      | inr py_tree => (Some {| file_path := file_path; py_tree := py_tree |}, [])
      end
  end.

End Parse.

(** ** Sample trees

    Small source files as RedBaron presents them, with the positions its
    bounding boxes report (lines and columns from 1, the bottom right
    corner on the last character of the node). *)

Module Sample.

Import PyStr.

Definition box_ (l1 c1 l2 c2 : Z) : option BoundingBox :=
  Some {| top_left := {| line := l1; column := c1 |};
          bottom_right := {| line := l2; column := c2 |} |}.

(** The literal ["s"] (no escapes in [s]) at the given box. *)
Definition str_lit (s : string) (b : option BoundingBox) : ValueNode :=
  StringNode (quoted s) (inr (PyString s)) b.

Definition positional (v : ValueNode) : CallArgumentNode :=
  {| target := ""; arg_value := v |}.

Definition param (n : string) : DefArgumentNode :=
  {| param_star := ""; param_name := n; param_rest := "" |}.

Definition step_decorator (args : CommaProxyList CallArgumentNode) : DecoratorNode :=
  {| name := "step"; dotted := "";
     call := Some {| call_lead := ""; call_value := args |};
     dec_end := nl |}.

Definition body : string := "):" +:+ nl +:+ "    pass" +:+ nl.

(** [@step(["a foo", "a bar"])] over [def f(a, b): pass] *)
Definition foo_bar_list : ValueNode :=
  ListNode ""
    [(str_lit "a foo" (box_ 1 8 1 14), ", ");
     (str_lit "a bar" (box_ 1 17 1 23), "")]
    (inr (PyList [PyString "a foo"; PyString "a bar"]))
    (box_ 1 7 1 24).

Definition def_f : DefNode :=
  {| decorators := [step_decorator [(positional foo_bar_list, "")]];
     def_head := "def "; def_name := "f"; def_open := "(";
     arguments := [(param "a", ", "); (param "b", "")];
     arguments_box := box_ 2 7 2 10;
     def_tail := body;
     def_box := box_ 1 1 4 0 |}.

Definition file_f : RedbaronPythonFile :=
  {| file_path := "step_impl.py"; py_tree := [Def def_f] |}.

(** [@step("old")] over [def g(a, b): pass] *)
Definition def_g : DefNode :=
  {| decorators := [step_decorator [(positional (str_lit "old" (box_ 1 7 1 11)), "")]];
     def_head := "def "; def_name := "g"; def_open := "(";
     arguments := [(param "a", ", "); (param "b", "")];
     arguments_box := box_ 2 7 2 10;
     def_tail := body;
     def_box := box_ 1 1 4 0 |}.

Definition file_g : RedbaronPythonFile :=
  {| file_path := "step_impl.py"; py_tree := [Def def_g] |}.

(** [@step()] over [def broken(): pass], then [@step("x")] over
    [def h(): pass] *)
Definition def_broken : DefNode :=
  {| decorators := [step_decorator []];
     def_head := "def "; def_name := "broken"; def_open := "(";
     arguments := []; arguments_box := box_ 2 12 2 11;
     def_tail := body;
     def_box := box_ 1 1 4 0 |}.

Definition def_h : DefNode :=
  {| decorators := [step_decorator [(positional (str_lit "x" (box_ 4 7 4 9)), "")]];
     def_head := "def "; def_name := "h"; def_open := "(";
     arguments := []; arguments_box := box_ 5 7 5 6;
     def_tail := body;
     def_box := box_ 4 1 7 0 |}.

Definition file_broken : RedbaronPythonFile :=
  {| file_path := "step_impl.py"; py_tree := [Def def_broken; Def def_h] |}.

(** [@step("")] over [def e(): pass] *)
Definition def_e : DefNode :=
  {| decorators := [step_decorator [(positional (str_lit "" (box_ 1 7 1 8)), "")]];
     def_head := "def "; def_name := "e"; def_open := "(";
     arguments := []; arguments_box := box_ 2 7 2 6;
     def_tail := body;
     def_box := box_ 1 1 4 0 |}.

Definition file_e : RedbaronPythonFile :=
  {| file_path := "step_impl.py"; py_tree := [Def def_e] |}.

(** A file system with the one file step_impl.py, holding [pass], and
    a parser that knows that one text. *)
Definition pass_source : string := "pass" +:+ nl.

Definition one_file (path : string) : Exception + string :=
  if String.eqb path "step_impl.py" then inr pass_source
  else inl {| exn_class := IOError; exn_msg := "No such file or directory" |}.

Definition RedBaron_pass (T : string) : Exception + list Node :=
  if String.eqb T pass_source then inr [Other StatementNode "pass"; Other EndlNode nl]
  else inl {| exn_class := ParsingError; exn_msg := "Error, got an unexpected token" |}.

End Sample.

(** ** Vocabulary of the statements *)

(** One generator run after another: the second runs only when the first
    ends without an exception. *)
Definition gen_then {A : Type} (a b : Generated A * list string)
  : Generated A * list string :=
  match raised (fst a) with
  | Some _ => a
  | None =>
      ({| yielded := yielded (fst a) ++ yielded (fst b); raised := raised (fst b) |},
       snd a ++ snd b)
  end.

(** The record [iter_steps] builds for the function [f] at index [i] of
    the tree, with the step value [v]. *)
Definition step_record (self : RedbaronPythonFile) (i : nat) (f : DefNode) (v : PyValue)
  : FunctionSteps :=
  {| steps := v; func := def_name f; fs_file_path := file_path self;
     span := inr (calculate_span_closure (FuncRef i)) |}.

(** The span of a bounding box, as the spec words it. *)
Definition span_of_box (box : BoundingBox) : Span :=
  {| startLine := line (top_left box);
     startCol := Z.max 0 (column (top_left box) - 1);
     endLine := line (bottom_right box);
     endCol := Z.max 0 (column (bottom_right box)) |}.

(** The name the spec gives the parameter at position [i] of the new
    list, from the names of the old one. *)
Definition new_name (old_names : list string) (i : nat) (move_from : Z) : option string :=
  if (move_from <? 0)%Z then Some ("arg" +:+ PyStr.of_nat (i + 1))
  else old_names !! Z.to_nat move_from.

Definition param_names (l : CommaProxyList DefArgumentNode) : list string :=
  (fun p => param_name (fst p)) <$> l.

(** [[0, 1, ..., n-1]] *)
Definition identity_moves (n : nat) : list Z := map Z.of_nat (seq 0 n).

(** ** The file system

    The files are a finite map from paths to their text; [open(path)] of a
    path that is not there raises. *)

Definition open_read_fs (fs : gmap string string) (path : string) : Exception + string :=
  match fs !! path with
  | Some text => inr text
  | None => inl {| exn_class := IOError; exn_msg := "No such file or directory" |}
  end.

(** ** static_loader *)

(** [s.endswith(suffix)] *)
Fixpoint endswith (suffix s : string) : bool :=
  if String.eqb suffix s then true
  else match s with
       | EmptyString => false
       | String _ rest => endswith suffix rest
       end.

(** [os.path.join(a, b)] on POSIX paths. *)
Definition os_path_join (a b : string) : string :=
  if String.prefix "/" b then b
  else if String.eqb a "" || endswith "/" a then a +:+ b
  else a +:+ "/" +:+ b.

(** The calls made on the registry of [getgauge.registry], in order. *)
Inductive RegistryCall :=
| add_step (steps : PyValue) (func : string) (file_path : string) (span : Span + SpanThunk)
| remove_steps (file_path : string).

(** What a loader did: the exception that ended it, if any, the calls it
    made on the registry, and the messages logged. *)
Definition Loaded : Type := option Exception * list RegistryCall * list string.

(** One loader after another; the second runs only if the first returned. *)
Definition loaded_then (a b : Loaded) : Loaded :=
  match a with
  | (Some e, calls, l) => (Some e, calls, l)
  | (None, calls, l) => let '(e, calls', l') := b in (e, calls ++ calls', l ++ l')
  end.

(** [load_steps] *)
Definition load_steps (python_file : RedbaronPythonFile) : Loaded :=
  let '(g, l) := iter_steps python_file in
  (raised g,
   map (fun funcStep =>
          add_step (steps funcStep) (func funcStep) (fs_file_path funcStep) (span funcStep))
       (yielded g),
   l).

Section StaticLoader.

(** Modelled from the spec: [PythonFile] of [getgauge.parser] is the
    parser of parser_redbaron.py; [os.walk] is given by its result. *)
Variable open_read : string -> Exception + string.
Variable RedBaron : string -> Exception + list Node.
Variable os_walk : string -> list (string * list string * list string).

(** [reload_steps] *)
Definition reload_steps (file_path : string) (content : option string) : Loaded :=
  match parse open_read RedBaron file_path content with
  | (Some pf, l) =>
      let '(e, calls, l') := load_steps pf in
      (e, remove_steps file_path :: calls, l ++ l')
  | (None, l) => (None, [], l)
  end.

(** The body of the inner loop of [load_files]. *)
Definition load_file (file_path : string) : Loaded :=
  match parse open_read RedBaron file_path None with
  | (Some pf, l) => let '(e, calls, l') := load_steps pf in (e, calls, l ++ l')
  | (None, l) => (None, [], l)
  end.

(** [py_files] of [load_files] *)
Definition py_files (dirpath : string) (files : list string) : list string :=
  map (os_path_join dirpath) (filter (fun f => endswith ".py" f = true) files).

Fixpoint load_py_files (paths : list string) : Loaded :=
  match paths with
  | [] => (None, [], [])
  | file_path :: rest => loaded_then (load_file file_path) (load_py_files rest)
  end.

Fixpoint load_files_loop (walk : list (string * list string * list string)) : Loaded :=
  match walk with
  | [] => (None, [], [])
  | (dirpath, _, files) :: rest =>
      loaded_then (load_py_files (py_files dirpath files)) (load_files_loop rest)
  end.

(** [load_files] *)
Definition load_files (step_impl_dir : string) : Loaded :=
  load_files_loop (os_walk step_impl_dir).

End StaticLoader.

(** ** More vocabulary *)

(** [s[k:]] *)
Fixpoint drop_chars (k : nat) (s : string) : string :=
  match k, s with
  | O, _ => s
  | S k', String _ rest => drop_chars k' rest
  | S _, EmptyString => EmptyString
  end.

(** The value the scan resolves for a decorator, when it returns one. *)
Definition resolved (self : RedbaronPythonFile) (d : DecoratorNode) : option PyValue :=
  match fst (_step_decorator_args self d) with
  | inr v => Some v
  | inl _ => None
  end.

(** [v] equals the text, or is a list that contains it. *)
Definition matches (step_text : string) (v : PyValue) : bool :=
  py_eq_str v step_text
  || match v with PyList l => py_in step_text l | _ => false end.

(** Two decorators that differ at most in their call. *)
Definition same_decorator_outline (d d' : DecoratorNode) : Prop :=
  name d' = name d /\ dotted d' = dotted d /\ dec_end d' = dec_end d /\
  (call d' = None <-> call d = None).

(** Two nodes that differ at most in the calls of the decorators and in
    the parameter list of a function definition. *)
Definition same_outline (n n' : Node) : Prop :=
  match n, n' with
  | Other t text, Other t' text' => t' = t /\ text' = text
  | Def f, Def f' =>
      def_head f' = def_head f /\ def_name f' = def_name f /\
      def_open f' = def_open f /\ def_tail f' = def_tail f /\
      Forall2 same_decorator_outline (decorators f) (decorators f')
  | _, _ => False
  end.

(** A registry call that adds a step of the file at [path]. *)
Definition adds_for (path : string) (c : RegistryCall) : Prop :=
  exists st fn sp, c = add_step st fn path sp.

(** All the paths [load_files] parses, in order. *)
Definition walked_py_files (walk : list (string * list string * list string)) : list string :=
  concat (map (fun entry => py_files (fst (fst entry)) (snd entry)) walk).

(** ** A sample directory

    The directory steps holds a.py, the source of [Sample.file_g], a text
    file, and b.py, which does not parse. *)

Module SampleDisk.

Definition disk : gmap string string :=
  <["steps/a.py" := get_code Sample.file_g]>
    (<["steps/notes.txt" := "remember"]> (<["steps/b.py" := "x = ("]> ∅)).

Definition walk (step_impl_dir : string) : list (string * list string * list string) :=
  [(step_impl_dir, [], ["a.py"; "notes.txt"; "b.py"])].

Definition RedBaron_g (T : string) : Exception + list Node :=
  if String.eqb T (get_code Sample.file_g) then inr (py_tree Sample.file_g)
  else inl {| exn_class := ParsingError; exn_msg := "Error, got an unexpected token" |}.

End SampleDisk.

(** ** Sample trees with two step functions

    Files in which two functions carry the same step text. *)

Module SampleOrder.

Import PyStr.


Definition foo_bar_list : ValueNode :=
  ListNode ""
    [(Sample.str_lit "a foo" (Sample.box_ 4 8 4 14), ", ");
     (Sample.str_lit "a bar" (Sample.box_ 4 17 4 23), "")]
    (inr (PyList [PyString "a foo"; PyString "a bar"]))
    (Sample.box_ 4 7 4 24).

Definition def_f : DefNode :=
  {| decorators := [Sample.step_decorator [(Sample.positional foo_bar_list, "")]];
     def_head := "def "; def_name := "f"; def_open := "(";
     arguments := [(Sample.param "a", ", "); (Sample.param "b", "")];
     arguments_box := Sample.box_ 5 7 5 10;
     def_tail := Sample.body;
     def_box := Sample.box_ 4 1 7 0 |}.


(** [@step("x")] over [def g(a, b, c): pass], then [@step("x")] over
    [def h(a, b): pass] *)
Definition def_g3 : DefNode :=
  {| decorators :=
       [Sample.step_decorator
          [(Sample.positional (Sample.str_lit "x" (Sample.box_ 1 7 1 9)), "")]];
     def_head := "def "; def_name := "g"; def_open := "(";
     arguments := [(Sample.param "a", ", "); (Sample.param "b", ", "); (Sample.param "c", "")];
     arguments_box := Sample.box_ 2 7 2 13;
     def_tail := Sample.body;
     def_box := Sample.box_ 1 1 4 0 |}.

Definition def_h2 : DefNode :=
  {| decorators :=
       [Sample.step_decorator
          [(Sample.positional (Sample.str_lit "x" (Sample.box_ 4 7 4 9)), "")]];
     def_head := "def "; def_name := "h"; def_open := "(";
     arguments := [(Sample.param "a", ", "); (Sample.param "b", "")];
     arguments_box := Sample.box_ 5 7 5 10;
     def_tail := Sample.body;
     def_box := Sample.box_ 4 1 7 0 |}.

Definition file_g3_h2 : RedbaronPythonFile :=
  {| file_path := "step_impl.py"; py_tree := [Def def_g3; Def def_h2] |}.

End SampleOrder.

(** * Properties *)

(** ** Text of a tree *)

Section Text.

Lemma app_assoc_s (a b c : string) : (a +:+ b) +:+ c = a +:+ b +:+ c.
Proof.
  induction a as [|ch a IH]; [reflexivity|].
  change (String ch ((a +:+ b) +:+ c) = String ch (a +:+ b +:+ c)).
  now rewrite IH.
Qed.

Lemma app_empty_r (a : string) : a +:+ "" = a.
Proof.
  induction a as [|ch a IH]; [reflexivity|].
  change (String ch (a +:+ "") = String ch a). now rewrite IH.
Qed.

Lemma dumps_cons (n : Node) (t : list Node) : dumps (n :: t) = dumps_node n +:+ dumps t.
Proof. reflexivity. Qed.

Lemma dumps_app (t1 t2 : list Node) : dumps (t1 ++ t2) = dumps t1 +:+ dumps t2.
Proof.
  induction t1 as [|n t1 IH]; [reflexivity|].
  change ((n :: t1) ++ t2) with (n :: (t1 ++ t2)).
  now rewrite !dumps_cons, IH, app_assoc_s.
Qed.

Lemma dumps_decorators_cons (d : DecoratorNode) (l : list DecoratorNode) :
  dumps_decorators (d :: l) = dumps_decorator d +:+ dumps_decorators l.
Proof. reflexivity. Qed.

Lemma dumps_decorators_app (l1 l2 : list DecoratorNode) :
  dumps_decorators (l1 ++ l2) = dumps_decorators l1 +:+ dumps_decorators l2.
Proof.
  induction l1 as [|d l1 IH]; [reflexivity|].
  change ((d :: l1) ++ l2) with (d :: (l1 ++ l2)).
  now rewrite !dumps_decorators_cons, IH, app_assoc_s.
Qed.

(** The text of a parameter list assigned from names is the names joined. *)
Lemma dumps_arguments_of_names (names : list string) :
  dumps_arguments (arguments_of_names names) = PyStr.join ", " names.
Proof.
  induction names as [|n [|m rest] IH]; [reflexivity | | ].
  - change (("" +:+ n +:+ "") +:+ "" +:+ "" = n).
    change ("" +:+ n +:+ "") with (n +:+ ""). now rewrite !app_empty_r.
  - change (dumps_arguments (arguments_of_names (n :: m :: rest)))
      with (("" +:+ n +:+ "") +:+ ", " +:+ dumps_arguments (arguments_of_names (m :: rest))).
    rewrite IH. change ("" +:+ n +:+ "") with (n +:+ ""). now rewrite app_empty_r.
Qed.

Lemma arguments_of_names_names (names : list string) :
  map (fun p => param_name (fst p)) (arguments_of_names names) = names.
Proof.
  induction names as [|n [|m rest] IH]; [reflexivity | reflexivity |].
  change (n :: map (fun p => param_name (fst p)) (arguments_of_names (m :: rest))
          = n :: m :: rest).
  now rewrite IH.
Qed.

Lemma arguments_of_names_bare (names : list string) :
  Forall (fun p => param_star (fst p) = "" /\ param_rest (fst p) = "")
         (arguments_of_names names).
Proof.
  induction names as [|n [|m rest] IH].
  - constructor.
  - repeat constructor.
  - change (arguments_of_names (n :: m :: rest))
      with (({| param_star := ""; param_name := n; param_rest := "" |}, ", ")
              :: arguments_of_names (m :: rest)).
    constructor; [split; reflexivity | exact IH].
Qed.

End Text.

(** ** The scan *)

Section Scan.

Variable self : RedbaronPythonFile.

Lemma bind_ret_l {A B : Type} (a : A) (k : A -> Out B) : bind (ret a) k = k a.
Proof. unfold bind, ret. now destruct (k a). Qed.

Lemma step_func_decorators_from_def (i : nat) (f : DefNode) (rest : list Node) :
  step_func_decorators_from i (Def f :: rest) =
  match first_step_decorator 0 (decorators f) with
  | Some jd => ((i, f), jd) :: step_func_decorators_from (S i) rest
  | None => step_func_decorators_from (S i) rest
  end.
Proof. reflexivity. Qed.

Lemma step_func_decorators_from_other (i : nat) (k : OtherType) (text : string)
    (rest : list Node) :
  step_func_decorators_from i (Other k text :: rest) = step_func_decorators_from (S i) rest.
Proof. cbn. now destruct (String.eqb _ _). Qed.

Lemma step_func_decorators_from_app (i : nat) (l1 l2 : list Node) :
  step_func_decorators_from i (l1 ++ l2) =
  step_func_decorators_from i l1 ++ step_func_decorators_from (i + length l1) l2.
Proof.
  revert i; induction l1 as [|n l1 IH]; intros i.
  - cbn. now rewrite Nat.add_0_r.
  - change ((n :: l1) ++ l2) with (n :: (l1 ++ l2)).
    destruct n as [f|k text].
    + rewrite !step_func_decorators_from_def, IH.
      replace (i + length (Def f :: l1)) with (S i + length l1) by (cbn; lia).
      now destruct (first_step_decorator 0 (decorators f)).
    + rewrite !step_func_decorators_from_other, IH.
      now replace (i + length (Other k text :: l1)) with (S i + length l1) by (cbn; lia).
Qed.

Lemma first_step_decorator_sound (k j : nat) (decs : list DecoratorNode) (d : DecoratorNode) :
  first_step_decorator k decs = Some (j, d) ->
  k <= j /\ decs !! (j - k) = Some d /\ name d = "step".
Proof.
  revert k; induction decs as [|d0 decs IH]; intros k H; [discriminate|].
  cbn in H. destruct (String.eqb (name d0) "step") eqn:E.
  - inversion H; subst. rewrite Nat.sub_diag.
    apply String.eqb_eq in E. auto.
  - apply IH in H as (Hle & Hl & Hn).
    replace (j - k) with (S (j - S k)) by lia. split; [lia | auto].
Qed.

Lemma step_func_decorators_sound (k : nat) (nodes : list Node)
    (i j : nat) (f : DefNode) (d : DecoratorNode) :
  In ((i, f), (j, d)) (step_func_decorators_from k nodes) ->
  k <= i /\ nodes !! (i - k) = Some (Def f) /\
  decorators f !! j = Some d /\ name d = "step".
Proof.
  revert k; induction nodes as [|n nodes IH]; intros k H; [contradiction|].
  assert (Hrest : In ((i, f), (j, d)) (step_func_decorators_from (S k) nodes) ->
                  k <= i /\ (n :: nodes) !! (i - k) = Some (Def f) /\
                  decorators f !! j = Some d /\ name d = "step").
  { intros H'. apply IH in H' as (Hle & Hl & Hd).
    replace (i - k) with (S (i - S k)) by lia. split; [lia | auto]. }
  destruct n as [g|t text].
  - rewrite step_func_decorators_from_def in H.
    destruct (first_step_decorator 0 (decorators g)) as [[j' d']|] eqn:E; [|auto].
    destruct H as [H|H]; [|auto].
    inversion H; subst. apply first_step_decorator_sound in E as (_ & Hl & Hn).
    rewrite Nat.sub_0_r in Hl. rewrite Nat.sub_diag. auto.
  - rewrite step_func_decorators_from_other in H. auto.
Qed.

Lemma gen_then_finished_l {A : Type} (b : Generated A * list string) :
  gen_then (finished, []) b = b.
Proof. now destruct b as [[y r] l]. Qed.

Lemma iter_steps_loop_app (p1 p2 : list ((nat * DefNode) * (nat * DecoratorNode))) :
  iter_steps_loop self (p1 ++ p2) =
  gen_then (iter_steps_loop self p1) (iter_steps_loop self p2).
Proof.
  induction p1 as [|[[i f] [j d]] p1 IH].
  - change (iter_steps_loop self p2 = gen_then (finished, []) (iter_steps_loop self p2)).
    now rewrite gen_then_finished_l.
  - cbn [iter_steps_loop app]. destruct (_step_decorator_args self d) as [[e|step] l].
    + reflexivity.
    + rewrite IH. destruct (iter_steps_loop self p1) as [[y1 [e1|]] l1];
        destruct (iter_steps_loop self p2) as [[y2 r2] l2];
        unfold gen_then; destruct (truthy step); cbn;
        rewrite ?app_assoc; reflexivity.
Qed.

Lemma find_step_loop_app (step_text : string)
    (p1 p2 : list ((nat * DefNode) * (nat * DecoratorNode))) (l1 : list string) :
  find_step_loop self step_text p1 = (inr None, l1) ->
  find_step_loop self step_text (p1 ++ p2) =
  (fst (find_step_loop self step_text p2), l1 ++ snd (find_step_loop self step_text p2)).
Proof.
  revert l1; induction p1 as [|[[i f] [j d]] p1 IH]; intros l1 H.
  - cbn in H. inversion H; subst. change ([] ++ p2) with p2.
    now destruct (find_step_loop self step_text p2).
  - cbn [find_step_loop app] in *.
    destruct (_step_decorator_args self d) as [[e|step] la]; [discriminate|].
    cbn [bind] in *.
    destruct (first_arg d) as [[e|arg_node] lb]; [discriminate|].
    cbn [bind] in *.
    assert (Hgo : forall m : Out (option (NodeRef * nat)),
               (let '(r, l') := (let '(r, l') := m in (r, lb ++ l')) in (r, la ++ l'))
               = (inr None, l1) ->
               exists l0, m = (inr None, l0) /\ l1 = la ++ lb ++ l0).
    { intros [r l0] Hm. inversion Hm; subst. eauto. }
    assert (Hrec : forall l0, find_step_loop self step_text p1 = (inr None, l0) ->
               l1 = la ++ lb ++ l0 ->
               (let '(r, l') :=
                  (let '(r, l') := find_step_loop self step_text (p1 ++ p2) in (r, lb ++ l'))
                in (r, la ++ l')) =
               (fst (find_step_loop self step_text p2),
                l1 ++ snd (find_step_loop self step_text p2))).
    { intros l0 H0 ->. rewrite (IH _ H0). now rewrite <- !app_assoc. }
    destruct (py_eq_str step step_text).
    { apply Hgo in H as (l0 & H0 & _). discriminate. }
    destruct step; try (apply Hgo in H as (l0 & H0 & Hl); now apply (Hrec l0)).
    destruct (py_in step_text l).
    + apply Hgo in H as (l0 & H0 & _).
      destruct (getitem arg_node i j (py_index step_text l)) as [[e|r] lc];
        cbn in H0; discriminate.
    + apply Hgo in H as (l0 & H0 & Hl). now apply (Hrec l0).
Qed.

End Scan.

(** ** What [_find_step_node] returns *)

Section Found.

Lemma step_decorator_args_ext (s1 s2 : RedbaronPythonFile) (d : DecoratorNode) :
  file_path s1 = file_path s2 ->
  _step_decorator_args s1 d = _step_decorator_args s2 d.
Proof.
  intros E. unfold _step_decorator_args, msg_one_argument, msg_string_or_list.
  now rewrite E.
Qed.

Lemma find_step_loop_ext (s1 s2 : RedbaronPythonFile) (step_text : string)
    (pairs : list ((nat * DefNode) * (nat * DecoratorNode))) :
  file_path s1 = file_path s2 ->
  find_step_loop s1 step_text pairs = find_step_loop s2 step_text pairs.
Proof.
  intros E. induction pairs as [|[[i f] [j d]] pairs IH]; [reflexivity|].
  cbn [find_step_loop]. now rewrite IH, (step_decorator_args_ext s1 s2 d E).
Qed.

Lemma first_arg_inv (d : DecoratorNode) (n : ValueNode) (l : list string) :
  first_arg d = (inr n, l) ->
  exists c a rest, call d = Some c /\ call_value c = a :: rest /\
                   n = arg_value (fst a) /\ l = [].
Proof.
  unfold first_arg. destruct (call d) as [c|]; [|discriminate].
  destruct (call_value c) as [|a rest] eqn:E; [discriminate|].
  intros H; inversion H; subst. eauto 10.
Qed.

Lemma bind_inr {A B : Type} (m : Out A) (k : A -> Out B) (b : B) (l : list string) :
  bind m k = (inr b, l) ->
  exists a la lb, m = (inr a, la) /\ k a = (inr b, lb) /\ l = la ++ lb.
Proof.
  destruct m as [[e|a] la]; cbn; [discriminate|].
  destruct (k a) as [r lb] eqn:E. intros H; inversion H; subst. eauto 10.
Qed.

(** A reference returned by the scan points into the tree it scanned. *)
Lemma find_step_loop_sound (self : RedbaronPythonFile) (step_text : string)
    (pairs : list ((nat * DefNode) * (nat * DecoratorNode)))
    (r : NodeRef) (i : nat) (l : list string) :
  find_step_loop self step_text pairs = (inr (Some (r, i)), l) ->
  exists f j d c a rest,
    In ((i, f), (j, d)) pairs /\ call d = Some c /\ call_value c = a :: rest /\
    (r = StepRef i j None \/
     exists k lead items py b,
       arg_value (fst a) = ListNode lead items py b /\ k < length items /\
       r = StepRef i j (Some k)).
Proof.
  revert l; induction pairs as [|[[i0 f0] [j0 d0]] pairs IH]; intros l H.
  - discriminate.
  - cbn [find_step_loop] in H.
    apply bind_inr in H as (step & la & lb & _ & H & _).
    apply bind_inr in H as (arg_node & lc & ld & Harg & H & _).
    apply first_arg_inv in Harg as (c & a & rest & Hc & Hv & -> & _).
    assert (Hrec : forall l', find_step_loop self step_text pairs = (inr (Some (r, i)), l') ->
              exists f j d c a rest,
                In ((i, f), (j, d)) ((i0, f0, (j0, d0)) :: pairs) /\
                call d = Some c /\ call_value c = a :: rest /\
                (r = StepRef i j None \/
                 exists k lead items py b,
                   arg_value (fst a) = ListNode lead items py b /\ k < length items /\
                   r = StepRef i j (Some k))).
    { intros l' H'. apply IH in H' as (f & j & d & c' & a' & rest' & Hin & Hrest).
      exists f, j, d, c', a', rest'. split; [now right | exact Hrest]. }
    destruct (py_eq_str step step_text).
    { inversion H; subst. exists f0, j0, d0, c, a, rest.
      split; [now left | auto]. }
    destruct step; try (now apply (Hrec ld)).
    destruct (py_in step_text l0); [|now apply (Hrec ld)].
    apply bind_inr in H as (step_node & le & lf & Hget & H & _).
    inversion H; subst.
    unfold getitem in Hget.
    destruct (arg_value (fst a)) as [| lead items py b |] eqn:Ea; try discriminate.
    destruct (Nat.ltb _ _) eqn:Elt; [|discriminate].
    inversion Hget; subst. apply Nat.ltb_lt in Elt.
    exists f0, j0, d0, c, a, rest. split; [now left|].
    split; [assumption|]. split; [assumption|]. right. eauto 10.
Qed.

Lemma find_step_node_sound (self : RedbaronPythonFile) (step_text : string)
    (r : NodeRef) (i : nat) (l : list string) :
  _find_step_node self step_text = (inr (Some (r, i)), l) ->
  exists f n j item,
    func_at (py_tree self) i = Some f /\ r = StepRef i j item /\
    node_at (py_tree self) r = Some n.
Proof.
  intros H. apply find_step_loop_sound in H
    as (f & j & d & c & a & rest & Hin & Hc & Hv & Hr).
  apply step_func_decorators_sound in Hin as (_ & Hl & Hd & _).
  rewrite Nat.sub_0_r in Hl.
  assert (Hf : func_at (py_tree self) i = Some f) by (unfold func_at; now rewrite Hl).
  destruct Hr as [-> | (k & lead & items & py & b & Ea & Hk & ->)].
  - exists f, (arg_value (fst a)), j, None. repeat split; [assumption|].
    cbn. rewrite Hf. cbn. rewrite Hd. cbn. rewrite Hc. cbn. now rewrite Hv.
  - destruct (lookup_lt_is_Some_2 items k Hk) as [it Hit].
    exists f, (fst it), j, (Some k). repeat split; [assumption|].
    cbn. rewrite Hf. cbn. rewrite Hd. cbn. rewrite Hc. cbn. rewrite Hv. cbn.
    rewrite Ea, Hit. reflexivity.
Qed.

End Found.

(** ** How [refactor_step] proceeds once the step is found *)

Section Refactor.

Lemma py_tree_with_tree (self : RedbaronPythonFile) (t : list Node) :
  py_tree (with_tree self t) = t.
Proof. reflexivity. Qed.

Lemma func_at_alter (t : list Node) (i k : nat) (g : DefNode -> DefNode) :
  func_at (alter (on_def g) i t) k =
  if decide (i = k) then g <$> func_at t k else func_at t k.
Proof.
  unfold func_at. destruct (decide (i = k)) as [->|Hne].
  - rewrite list_lookup_alter_eq. destruct (t !! k) as [[f|o text]|]; reflexivity.
  - now rewrite list_lookup_alter_ne.
Qed.

(** Assigning the literal leaves the parameters of every function alone. *)
Lemma func_at_set_value (t : list Node) (r : NodeRef) (v : string) (i : nat) (f : DefNode) :
  func_at t i = Some f ->
  exists f', func_at (set_value t r v) i = Some f' /\
             arguments f' = arguments f /\ arguments_box f' = arguments_box f /\
             def_name f' = def_name f.
Proof.
  intros Hf. destruct r as [k | k j item | k]; cbn [set_value]; eauto.
  rewrite func_at_alter. destruct (decide (k = i)); rewrite Hf; cbn; eauto.
Qed.

Lemma calculate_span_arguments_set_value (t : list Node) (r : NodeRef) (v : string) (i : nat) :
  calculate_span (set_value t r v) (ArgumentsRef i) = calculate_span t (ArgumentsRef i).
Proof.
  unfold calculate_span. cbn [absolute_bounding_box].
  destruct (func_at t i) as [f|] eqn:Hf.
  - destruct (func_at_set_value t r v i f Hf) as (f' & -> & _ & Hb & _).
    cbn. now rewrite Hb.
  - assert (Hn : func_at (set_value t r v) i = None).
    { destruct r as [k | k j item | k]; cbn [set_value]; auto.
      rewrite func_at_alter. destruct (decide (k = i)); now rewrite Hf. }
    now rewrite Hn.
Qed.

Lemma refactor_step_found (self : RedbaronPythonFile) (old_text new_text : string)
    (move : list Z) (r : NodeRef) (i : nat) (l : list string) (v : string) (f : DefNode) :
  _find_step_node self old_text = (inr (Some (r, i)), l) ->
  node_at (py_tree self) r ≫= string_value = Some v ->
  func_at (py_tree self) i = Some f ->
  refactor_step self old_text new_text move =
  let new_value := PyStr.replace old_text new_text v in
  let self1 := with_tree self (set_value (py_tree self) r new_value) in
  let diffs := [(calculate_span (py_tree self) r, new_value)] in
  if params_unmoved (arguments f) move then (inr diffs, self1, l)
  else
    match new_params_loop (arguments f) (PyStr.enumerate move) with
    | inl e => (inl e, self1, l)
    | inr names =>
        (inr (diffs ++ [(calculate_span (py_tree self1) (ArgumentsRef i),
                         PyStr.join ", " names)]),
         with_tree self1 (set_arguments (py_tree self1) i names), l)
    end.
Proof.
  intros Hfind Hv Hf. unfold refactor_step. rewrite Hfind, Hv.
  cbn [py_tree with_tree].
  destruct (func_at_set_value (py_tree self) r
              (PyStr.replace old_text new_text v) i f Hf) as (f' & -> & Ha & _).
  rewrite Ha. cbn zeta.
  destruct (params_unmoved (arguments f) move); [reflexivity|].
  destruct (new_params_loop (arguments f) (PyStr.enumerate move)); [reflexivity|].
  now rewrite dumps_arguments_of_names.
Qed.

Lemma params_unmoved_identity (old_params : CommaProxyList DefArgumentNode) :
  params_unmoved old_params (identity_moves (length old_params)) = true.
Proof.
  unfold params_unmoved, identity_moves. rewrite length_map, length_seq, Nat.eqb_refl.
  cbn [andb]. unfold PyStr.enumerate. generalize (length old_params) as n.
  generalize 0 as k. intros k n; revert k.
  induction n as [|n IH]; intros k; [reflexivity|].
  cbn. rewrite Z.eqb_refl. apply IH.
Qed.

Lemma new_params_loop_names (old_params : CommaProxyList DefArgumentNode)
    (move : list Z) (k : nat) (names : list string) :
  new_params_loop old_params (PyStr.enumerate_from k move) = inr names ->
  length names = length move /\
  forall i m, move !! i = Some m ->
              exists n, names !! i = Some n /\
                        new_name (param_names old_params) (k + i) m = Some n.
Proof.
  revert k names; induction move as [|m0 move IH]; intros k names H.
  - inversion H; subst. split; [reflexivity|]. intros i m Hi. discriminate.
  - cbn [PyStr.enumerate_from new_params_loop] in H.
    destruct (if (m0 <? 0)%Z then _ else _) as [n0|] eqn:E0; [|discriminate].
    destruct (new_params_loop old_params (PyStr.enumerate_from (S k) move))
      as [e|names'] eqn:E; [discriminate|].
    inversion H; subst. destruct (IH _ _ E) as [Hlen Hnames].
    split; [cbn; now rewrite Hlen|].
    intros [|i] m Hi.
    + inversion Hi; subst. exists n0. split; [reflexivity|].
      unfold new_name, param_names. rewrite Nat.add_0_r, list_lookup_fmap. exact E0.
    + destruct (Hnames i m Hi) as (n & Hn & Hnew). exists n. split; [exact Hn|].
      now replace (k + S i) with (S k + i) by lia.
Qed.

Lemma new_params_loop_total (old_params : CommaProxyList DefArgumentNode)
    (move : list Z) (k : nat) :
  (forall m, In m move -> (m < Z.of_nat (length old_params))%Z) ->
  exists names, new_params_loop old_params (PyStr.enumerate_from k move) = inr names.
Proof.
  revert k; induction move as [|m0 move IH]; intros k Hin; [now exists []|].
  cbn [PyStr.enumerate_from new_params_loop].
  destruct (IH (S k)) as [names ->]; [intros m Hm; apply Hin; now right|].
  destruct (m0 <? 0)%Z eqn:E; [eauto|].
  apply Z.ltb_ge in E.
  assert (Hlt : Z.to_nat m0 < length old_params).
  { specialize (Hin m0 (or_introl eq_refl)). lia. }
  destruct (lookup_lt_is_Some_2 _ _ Hlt) as [p ->]. cbn. eauto.
Qed.

End Refactor.

(** ** Spans *)

(** C9. The span of a node is its bounding box with the columns moved to
    base 0: the start column is max(0, column - 1), the end column is
    max(0, column), the lines are kept.  A node without a bounding box gets
    the sentinel (0,0,0,0) instead of an exception, and a box whose first
    line is at least 1 never gives the sentinel.  The deferred form, called
    on the same tree, gives the same span. *)
Theorem span_for_node_columns_and_sentinel
    (self : RedbaronPythonFile) (node : NodeRef) :
  match absolute_bounding_box (py_tree self) node with
  | Some box =>
      _span_for_node self node false = span_of_box box /\
      startCol (span_of_box box) = Z.max 0 (column (top_left box) - 1) /\
      endCol (span_of_box box) = Z.max 0 (column (bottom_right box)) /\
      startLine (span_of_box box) = line (top_left box) /\
      endLine (span_of_box box) = line (bottom_right box) /\
      ((1 <= line (top_left box))%Z -> span_of_box box <> sentinel)
  | None => _span_for_node self node false = sentinel
  end /\
  call_thunk (py_tree self) (_span_for_node self node true)
    = _span_for_node self node false /\
  startLine sentinel = 0%Z.
Proof.
  split; [|split; [|reflexivity]].
  - unfold _span_for_node, calculate_span.
    destruct (absolute_bounding_box (py_tree self) node) as [box|]; [|reflexivity].
    repeat split. intros Hline Heq.
    apply (f_equal startLine) in Heq. cbn in Heq. lia.
  - reflexivity.
Qed.

Lemma span_for_node_columns_and_sentinel_witness :
  _span_for_node Sample.file_f (FuncRef 0) false
    = {| startLine := 1; startCol := 0; endLine := 4; endCol := 0 |} /\
  {| startLine := 1; startCol := 0; endLine := 4; endCol := 0 |} <> sentinel.
Proof.
  pose proof (span_for_node_columns_and_sentinel Sample.file_f (FuncRef 0)) as [H _].
  cbn in H. destruct H as (H1 & _ & _ & _ & _ & H2).
  split; [exact H1 | apply H2; lia].
Defined.

(** ** Parameter remapping *)

(** C3, as stated: in any tree that holds a matching step on a function
    with n parameters, the identity move list of length n gives exactly one
    edit.  Here h(a, b) carries the step "x" and has two parameters, and
    g(a, b, c) before it carries the same step.  With the move list [0, 1]
    the first match in source order, g, is the function refactored: the
    list is not the identity on its three parameters, so a parameter edit
    follows the step-text edit and g is left with the parameters a, b. *)
Lemma identity_moves_of_later_function_give_two_edits :
  func_at (py_tree SampleOrder.file_g3_h2) 1 = Some SampleOrder.def_h2 /\
  map (fun p => resolved SampleOrder.file_g3_h2 (snd (snd p)))
      (_iter_step_func_decorators SampleOrder.file_g3_h2)
    = [Some (PyString "x"); Some (PyString "x")] /\
  length (arguments SampleOrder.def_h2) = 2 /\
  identity_moves 2 = [0%Z; 1%Z] /\
  fst (fst (refactor_step SampleOrder.file_g3_h2 "x" "y" (identity_moves 2))) =
    inr [({| startLine := 1; startCol := 6; endLine := 1; endCol := 9 |},
          PyStr.quoted "y");
         ({| startLine := 2; startCol := 6; endLine := 2; endCol := 13 |},
          "a, b")] /\
  (param_names <$>
     (arguments <$>
        func_at (py_tree (snd (fst (refactor_step SampleOrder.file_g3_h2 "x" "y"
                                      (identity_moves 2))))) 0))
    = Some ["a"; "b"].
Proof. repeat split. Qed.

(** C3, amended. When the scan of [refactor_step] returns the step, in a
    string literal, on a function with n parameters (the first function in
    source order whose step matches, the scan having reached it without an
    exception) and the move list is [0, 1, ..., n-1], [refactor_step]
    returns exactly one edit, the step-text edit, and the function keeps
    its parameter list. *)
Theorem identity_remap_single_edit
    (self : RedbaronPythonFile) (old_text new_text : string)
    (r : NodeRef) (i : nat) (l : list string) (v : string) (f : DefNode) (n : nat) :
  _find_step_node self old_text = (inr (Some (r, i)), l) ->
  node_at (py_tree self) r ≫= string_value = Some v ->
  func_at (py_tree self) i = Some f ->
  length (arguments f) = n ->
  exists self' f',
    refactor_step self old_text new_text (identity_moves n) =
      (inr [(calculate_span (py_tree self) r, PyStr.replace old_text new_text v)],
       self', l) /\
    func_at (py_tree self') i = Some f' /\
    arguments f' = arguments f /\
    dumps_arguments (arguments f') = dumps_arguments (arguments f).
Proof.
  intros Hfind Hv Hf <-.
  rewrite (refactor_step_found _ _ _ _ _ _ _ _ _ Hfind Hv Hf).
  cbn zeta. rewrite params_unmoved_identity.
  destruct (func_at_set_value (py_tree self) r
              (PyStr.replace old_text new_text v) i f Hf) as (f' & Hf' & Ha & _).
  eexists _, f'. split; [reflexivity|]. cbn [py_tree with_tree].
  split; [exact Hf'|]. split; [exact Ha | now rewrite Ha].
Qed.

Lemma identity_remap_single_edit_witness :
  exists self',
    refactor_step Sample.file_g "old" "new" [0%Z; 1%Z] =
      (inr [({| startLine := 1; startCol := 6; endLine := 1; endCol := 11 |},
             PyStr.quoted "new")], self', []) /\
    (arguments <$> func_at (py_tree self') 0) = Some (arguments Sample.def_g).
Proof.
  destruct (identity_remap_single_edit Sample.file_g "old" "new"
              (StepRef 0 0 None) 0 [] (PyStr.quoted "old") Sample.def_g 2)
    as (self' & f' & Hr & Hf & Ha & _); try reflexivity.
  exists self'. split; [exact Hr|]. now rewrite Hf, <- Ha.
Defined.

(** C4, as the spec words its example: with the move list [-1, 0] on the
    parameters (a, b) the parameter edit would read "arg1, b".  On the
    function g(a, b) decorated with "old" the edit reads "arg1, a": position
    1 takes the old parameter at index 0, which is a. *)
Lemma remap_example_is_arg1_a :
  fst (fst (refactor_step Sample.file_g "old" "new" [(-1)%Z; 0%Z])) =
    inr [({| startLine := 1; startCol := 6; endLine := 1; endCol := 11 |},
          PyStr.quoted "new");
         ({| startLine := 2; startCol := 6; endLine := 2; endCol := 10 |},
          "arg1, a")] /\
  param_names (arguments Sample.def_g) = ["a"; "b"] /\
  "arg1, a" <> "arg1, b".
Proof. split; [reflexivity | split; [reflexivity | discriminate]]. Qed.

(** C4, amended. When the step is found, the move list is not the
    identity on the old parameters and every index in it is below their
    number, [refactor_step] returns the step-text edit followed by the
    parameter edit; its text is the new names joined by ", ", where the name
    at position i is arg{i+1} for a negative entry and otherwise the name of
    the old parameter at that index.  With the move list [-1, 0] on
    parameters named a, b the text is "arg1, a". *)
Theorem remap_names_and_edit
    (self : RedbaronPythonFile) (old_text new_text : string) (move : list Z)
    (r : NodeRef) (i : nat) (l : list string) (v : string) (f : DefNode) :
  _find_step_node self old_text = (inr (Some (r, i)), l) ->
  node_at (py_tree self) r ≫= string_value = Some v ->
  func_at (py_tree self) i = Some f ->
  params_unmoved (arguments f) move = false ->
  (forall m, In m move -> (m < Z.of_nat (length (arguments f)))%Z) ->
  exists names self',
    refactor_step self old_text new_text move =
      (inr [(calculate_span (py_tree self) r, PyStr.replace old_text new_text v);
            (calculate_span
               (set_value (py_tree self) r (PyStr.replace old_text new_text v))
               (ArgumentsRef i),
             PyStr.join ", " names)],
       self', l) /\
    length names = length move /\
    (forall k m, move !! k = Some m ->
       exists n, names !! k = Some n /\
         n = if (m <? 0)%Z then "arg" +:+ PyStr.of_nat (k + 1)
             else default "" (param_names (arguments f) !! Z.to_nat m)) /\
    (move = [(-1)%Z; 0%Z] -> param_names (arguments f) = ["a"; "b"] ->
     PyStr.join ", " names = "arg1, a").
Proof.
  intros Hfind Hv Hf Hmoved Hrange.
  rewrite (refactor_step_found _ _ _ _ _ _ _ _ _ Hfind Hv Hf).
  cbn zeta. rewrite Hmoved.
  destruct (new_params_loop_total (arguments f) move 0 Hrange) as [names Hnames].
  unfold PyStr.enumerate. rewrite Hnames.
  destruct (new_params_loop_names _ _ _ _ Hnames) as [Hlen Hspec].
  assert (Hpoint : forall k m, move !! k = Some m ->
            exists n, names !! k = Some n /\
              n = if (m <? 0)%Z then "arg" +:+ PyStr.of_nat (k + 1)
                  else default "" (param_names (arguments f) !! Z.to_nat m)).
  { intros k m Hk. destruct (Hspec k m Hk) as (n & Hn & Hnew).
    exists n. split; [exact Hn|]. unfold new_name in Hnew. cbn in Hnew.
    destruct (m <? 0)%Z; [now inversion Hnew | now rewrite Hnew]. }
  eexists names, _. split; [reflexivity|]. split; [exact Hlen|]. split; [exact Hpoint|].
  intros -> Hab. rewrite Hab in Hpoint.
  destruct (Hpoint 0 (-1)%Z eq_refl) as (n0 & Hn0 & ->).
  destruct (Hpoint 1 0%Z eq_refl) as (n1 & Hn1 & ->).
  destruct names as [|x [|y [|z names]]]; try discriminate.
  cbn in Hn0, Hn1. inversion Hn0; inversion Hn1; subst. reflexivity.
Qed.

Lemma remap_names_and_edit_witness :
  exists self',
    refactor_step Sample.file_g "old" "new" [(-1)%Z; 0%Z] =
      (inr [({| startLine := 1; startCol := 6; endLine := 1; endCol := 11 |},
             PyStr.quoted "new");
            ({| startLine := 2; startCol := 6; endLine := 2; endCol := 10 |},
             "arg1, a")], self', []).
Proof.
  destruct (remap_names_and_edit Sample.file_g "old" "new" [(-1)%Z; 0%Z]
              (StepRef 0 0 None) 0 [] (PyStr.quoted "old") Sample.def_g)
    as (names & self' & Hr & _ & _ & Htxt); try reflexivity.
  { intros m [<-|[<-|[]]]; cbn; lia. }
  exists self'. rewrite Hr. now rewrite (Htxt eq_refl eq_refl).
Defined.

(** C10. Whenever [refactor_step] returns a parameter edit, its text is
    the chosen names joined by ", ", the function's new parameter list
    dumps to that same text, and every new parameter is a bare name: no
    star, annotation or default of an old parameter is carried over. *)
Theorem parameter_edit_keeps_bare_names
    (self self' : RedbaronPythonFile) (old_text new_text : string) (move : list Z)
    (e1 : Span * string) (sp : Span) (txt : string) (l : list string) :
  refactor_step self old_text new_text move = (inr [e1; (sp, txt)], self', l) ->
  exists i f f' names,
    func_at (py_tree self) i = Some f /\
    new_params_loop (arguments f) (PyStr.enumerate move) = inr names /\
    (forall k m, move !! k = Some m ->
       exists n, names !! k = Some n /\
                 new_name (param_names (arguments f)) k m = Some n) /\
    txt = PyStr.join ", " names /\
    func_at (py_tree self') i = Some f' /\
    param_names (arguments f') = names /\
    dumps_arguments (arguments f') = txt /\
    Forall (fun p => param_star (fst p) = "" /\ param_rest (fst p) = "") (arguments f').
Proof.
  intros H.
  destruct (_find_step_node self old_text) as [[e|[[r i]|]] l0] eqn:Hfind;
    try (unfold refactor_step in H; rewrite Hfind in H; discriminate).
  destruct (find_step_node_sound _ _ _ _ _ Hfind) as (f & n & j & item & Hf & -> & Hn).
  destruct (node_at (py_tree self) (StepRef i j item) ≫= string_value) as [v|] eqn:Hv;
    [|unfold refactor_step in H; rewrite Hfind, Hv in H; discriminate].
  rewrite (refactor_step_found _ _ _ _ _ _ _ _ _ Hfind Hv Hf) in H. cbn zeta in H.
  destruct (params_unmoved (arguments f) move); [discriminate|].
  destruct (new_params_loop (arguments f) (PyStr.enumerate move)) as [e|names] eqn:Hnames;
    [discriminate|].
  inversion H; subst; clear H.
  destruct (func_at_set_value (py_tree self) (StepRef i j item)
              (PyStr.replace old_text new_text v) i f Hf) as (f1 & Hf1 & _).
  exists i, f, (with_arguments (arguments_of_names names) f1), names.
  split; [exact Hf|]. split; [exact Hnames|].
  split. { intros k m Hk. now apply (new_params_loop_names _ _ 0 _ Hnames). }
  split; [reflexivity|].
  split. { rewrite !py_tree_with_tree. unfold set_arguments.
           rewrite func_at_alter, decide_True by reflexivity.
           exact (f_equal (fmap (with_arguments (arguments_of_names names))) Hf1). }
  cbn [arguments with_arguments].
  split. { unfold param_names. apply arguments_of_names_names. }
  split; [apply dumps_arguments_of_names | apply arguments_of_names_bare].
Qed.

(** ** Discovery *)

Section Discovery.

Variable self : RedbaronPythonFile.

Lemma step_decorator_args_wrong_arity (d : DecoratorNode) (c : CallNode) :
  call d = Some c -> length (call_value c) <> 1 ->
  _step_decorator_args self d = (inr PyNone, [msg_one_argument self]).
Proof.
  intros Hc Hlen. unfold _step_decorator_args. rewrite Hc.
  destruct (call_value c) as [|a [|b rest]]; [reflexivity | | reflexivity].
  now contradiction Hlen.
Qed.

Lemma step_decorator_args_resolved (d : DecoratorNode) (c : CallNode)
    (a : CallArgumentNode * string) (v : PyValue) :
  call d = Some c -> call_value c = [a] ->
  to_python (arg_value (fst a)) = inr v -> is_str_or_list v = true ->
  _step_decorator_args self d = (inr v, []).
Proof.
  intros Hc Ha Hv Hs. unfold _step_decorator_args. rewrite Hc, Ha, Hv.
  rewrite bind_ret_l. now rewrite Hs.
Qed.

(** The tree around one function: the pairs of the scan, split there. *)
Lemma scan_split (pre post : list Node) (f : DefNode) (j : nat) (d : DecoratorNode) :
  py_tree self = pre ++ Def f :: post ->
  first_step_decorator 0 (decorators f) = Some (j, d) ->
  _iter_step_func_decorators self =
  step_func_decorators_from 0 pre ++
  ((length pre, f), (j, d)) :: step_func_decorators_from (S (length pre)) post.
Proof.
  intros Ht Hd. unfold _iter_step_func_decorators.
  rewrite Ht, step_func_decorators_from_app, step_func_decorators_from_def, Hd.
  reflexivity.
Qed.

(** Every record yielded comes from a pair of the scan. *)
Lemma iter_steps_loop_yielded (pairs : list ((nat * DefNode) * (nat * DecoratorNode)))
    (fs : FunctionSteps) :
  In fs (yielded (fst (iter_steps_loop self pairs))) ->
  exists i f j d, In ((i, f), (j, d)) pairs /\
                  span fs = inr (calculate_span_closure (FuncRef i)).
Proof.
  induction pairs as [|[[i f] [j d]] pairs IH]; [contradiction|].
  cbn [iter_steps_loop]. destruct (_step_decorator_args self d) as [[e|step] l];
    [contradiction|].
  destruct (iter_steps_loop self pairs) as [g l'] eqn:E. cbn [fst] in *.
  intros Hin.
  assert (Hrest : In fs (yielded g) ->
            exists i0 f0 j0 d0, In ((i0, f0), (j0, d0)) (((i, f), (j, d)) :: pairs) /\
                                span fs = inr (calculate_span_closure (FuncRef i0))).
  { intros H. destruct (IH H) as (i0 & f0 & j0 & d0 & Hp & Hs).
    exists i0, f0, j0, d0. split; [now right | exact Hs]. }
  destruct (truthy step); [|auto].
  destruct Hin as [<-|Hin]; [|auto].
  exists i, f, j, d. split; [now left | reflexivity].
Qed.

End Discovery.

(** C7. A step decorator whose call has no argument, or two or more,
    resolves to None and logs the one message "accepts only one argument".
    When it is the decorator the scan takes for a function (the first one
    named step), that function adds this one message and no record to what
    [iter_steps] yields: the rest is what the functions before and after it
    yield, and no record yielded holds this function's node. *)
Theorem single_argument_rule
    (self : RedbaronPythonFile) (d : DecoratorNode) (c : CallNode) :
  call d = Some c ->
  length (call_value c) <> 1 ->
  _step_decorator_args self d = (inr PyNone, [msg_one_argument self]) /\
  forall (pre post : list Node) (f : DefNode) (j : nat),
    py_tree self = pre ++ Def f :: post ->
    first_step_decorator 0 (decorators f) = Some (j, d) ->
    iter_steps self =
      gen_then (iter_steps_loop self (step_func_decorators_from 0 pre))
        (gen_then (finished, [msg_one_argument self])
           (iter_steps_loop self (step_func_decorators_from (S (length pre)) post))) /\
    (forall fs, In fs (yielded (fst (iter_steps self))) ->
                span fs <> inr (calculate_span_closure (FuncRef (length pre)))).
Proof.
  intros Hc Hlen.
  pose proof (step_decorator_args_wrong_arity self d c Hc Hlen) as Hargs.
  split; [exact Hargs|]. intros pre post f j Ht Hd.
  assert (Hiter : iter_steps self =
    gen_then (iter_steps_loop self (step_func_decorators_from 0 pre))
      (gen_then (finished, [msg_one_argument self])
         (iter_steps_loop self (step_func_decorators_from (S (length pre)) post)))).
  { unfold iter_steps. rewrite (scan_split self pre post f j d Ht Hd), iter_steps_loop_app.
    f_equal. cbn [iter_steps_loop]. rewrite Hargs.
    now destruct (iter_steps_loop self _) as [[y r] l]. }
  split; [exact Hiter|].
  intros fs Hin Hspan. rewrite Hiter in Hin.
  assert (Hcases :
    In fs (yielded (fst (iter_steps_loop self (step_func_decorators_from 0 pre)))) \/
    In fs (yielded (fst (iter_steps_loop self
                           (step_func_decorators_from (S (length pre)) post))))).
  { revert Hin. unfold gen_then.
    destruct (iter_steps_loop self (step_func_decorators_from 0 pre)) as [[y1 [e1|]] l1];
      cbn; [auto|].
    rewrite in_app_iff. tauto. }
  destruct Hcases as [H|H];
    apply iter_steps_loop_yielded in H as (i & f0 & j0 & d0 & Hp & Hs);
    rewrite Hs in Hspan; inversion Hspan; subst;
    apply step_func_decorators_sound in Hp as (Hle & Hl & _).
  - apply lookup_lt_Some in Hl. lia.
  - lia.
Qed.

Lemma single_argument_rule_witness :
  _step_decorator_args Sample.file_broken (Sample.step_decorator []) =
    (inr PyNone, ["Decorator step accepts only one argument - step_impl.py"]) /\
  snd (iter_steps Sample.file_broken) =
    ["Decorator step accepts only one argument - step_impl.py"] /\
  map func (yielded (fst (iter_steps Sample.file_broken))) = ["h"].
Proof.
  destruct (single_argument_rule Sample.file_broken (Sample.step_decorator [])
              {| call_lead := ""; call_value := [] |})
    as (Hargs & Htree); [reflexivity | cbn; lia |].
  destruct (Htree [] [Def Sample.def_h] Sample.def_broken 0 eq_refl eq_refl)
    as (Hiter & _).
  split; [exact Hargs|]. rewrite Hiter. split; reflexivity.
Defined.

(** C6, as stated: every function whose step decorator's single argument
    resolves to a string yields a record.  The function e is decorated
    with the empty string; the argument resolves to it, without an error,
    and [iter_steps] yields nothing. *)
Lemma empty_step_text_not_discovered :
  py_tree Sample.file_e = [Def Sample.def_e] /\
  first_step_decorator 0 (decorators Sample.def_e)
    = Some (0, Sample.step_decorator
                 [(Sample.positional (Sample.str_lit "" (Sample.box_ 1 7 1 8)), "")]) /\
  _step_decorator_args Sample.file_e
      (Sample.step_decorator
         [(Sample.positional (Sample.str_lit "" (Sample.box_ 1 7 1 8)), "")])
    = (inr (PyString ""), []) /\
  iter_steps Sample.file_e = (finished, []).
Proof. repeat split. Qed.

(** C6, amended. Take a top-level function whose first step decorator
    has a single argument that resolves to a string or a list, not empty,
    and which the scan reaches (no earlier step decorator raises).  Then
    [iter_steps] yields, after the records of the functions before it and
    before those of the functions after it, the record with that value, the
    function's name, the file path and the deferred span of the function
    node; called on the tree, the deferred span is the function's span. *)
Theorem discovery_yields_resolved_step
    (self : RedbaronPythonFile) (pre post : list Node) (f : DefNode)
    (j : nat) (d : DecoratorNode) (c : CallNode)
    (a : CallArgumentNode * string) (v : PyValue) :
  py_tree self = pre ++ Def f :: post ->
  first_step_decorator 0 (decorators f) = Some (j, d) ->
  call d = Some c ->
  call_value c = [a] ->
  to_python (arg_value (fst a)) = inr v ->
  is_str_or_list v = true ->
  truthy v = true ->
  raised (fst (iter_steps_loop self (step_func_decorators_from 0 pre))) = None ->
  let before := iter_steps_loop self (step_func_decorators_from 0 pre) in
  let after := iter_steps_loop self (step_func_decorators_from (S (length pre)) post) in
  let record := {| steps := v; func := def_name f; fs_file_path := file_path self;
                   span := inr (_span_for_node self (FuncRef (length pre)) true) |} in
  iter_steps self =
    ({| yielded := yielded (fst before) ++ record :: yielded (fst after);
        raised := raised (fst after) |},
     snd before ++ snd after) /\
  In record (yielded (fst (iter_steps self))) /\
  record = step_record self (length pre) f v /\
  call_thunk (py_tree self) (calculate_span_closure (FuncRef (length pre)))
    = match def_box f with Some box => span_of_box box | None => sentinel end.
Proof.
  intros Ht Hd Hc Ha Hv Hs Htruthy Hraised before after record.
  assert (Hiter : iter_steps self =
    ({| yielded := yielded (fst before) ++ record :: yielded (fst after);
        raised := raised (fst after) |},
     snd before ++ snd after)).
  { unfold iter_steps. rewrite (scan_split self pre post f j d Ht Hd), iter_steps_loop_app.
    unfold gen_then. rewrite Hraised. subst before after record.
    cbn [iter_steps_loop]. rewrite (step_decorator_args_resolved self d c a v Hc Ha Hv Hs).
    destruct (iter_steps_loop self (step_func_decorators_from (S (length pre)) post))
      as [[y r] l].
    now rewrite Htruthy. }
  split; [exact Hiter|]. split; [|split; [reflexivity|]].
  - rewrite Hiter. cbn. apply in_or_app. right. now left.
  - cbn. unfold calculate_span. cbn [absolute_bounding_box].
    unfold func_at. rewrite Ht, list_lookup_middle by reflexivity. cbn.
    now destruct (def_box f).
Qed.

Lemma discovery_yields_resolved_step_witness :
  yielded (fst (iter_steps Sample.file_broken)) =
    [{| steps := PyString "x"; func := "h"; fs_file_path := "step_impl.py";
        span := inr (calculate_span_closure (FuncRef 1)) |}] /\
  call_thunk (py_tree Sample.file_broken) (calculate_span_closure (FuncRef 1))
    = {| startLine := 4; startCol := 0; endLine := 7; endCol := 0 |}.
Proof.
  destruct (discovery_yields_resolved_step Sample.file_broken
              [Def Sample.def_broken] [] Sample.def_h 0
              (Sample.step_decorator
                 [(Sample.positional (Sample.str_lit "x" (Sample.box_ 4 7 4 9)), "")])
              {| call_lead := "";
                 call_value :=
                   [(Sample.positional (Sample.str_lit "x" (Sample.box_ 4 7 4 9)), "")] |}
              (Sample.positional (Sample.str_lit "x" (Sample.box_ 4 7 4 9)), "")
              (PyString "x"))
    as (Hiter & _ & _ & Hspan); try reflexivity.
  split; [now rewrite Hiter | exact Hspan].
Defined.

(** ** The location scan of [refactor_step] *)

(** C8. The file holds broken(), decorated with a step call without
    arguments, and then h(), decorated with "x".  The location scan logs the
    argument error for broken() and then raises IndexError on its first
    argument: [refactor_step] ends there and h() is never looked at.  The
    discovery scan of the same tree skips broken() and reaches h(). *)
Theorem refactor_scan_aborts_on_empty_call :
  _find_step_node Sample.file_broken "x" =
    (inl (IndexError_ "list index out of range"),
     ["Decorator step accepts only one argument - step_impl.py"]) /\
  refactor_step Sample.file_broken "x" "y" [] =
    (inl (IndexError_ "list index out of range"), Sample.file_broken,
     ["Decorator step accepts only one argument - step_impl.py"]) /\
  iter_steps Sample.file_broken =
    ({| yielded := [step_record Sample.file_broken 1 Sample.def_h (PyString "x")];
        raised := None |},
     ["Decorator step accepts only one argument - step_impl.py"]).
Proof. repeat split. Qed.

(** C5. On the same file the two step decorators resolve to None and
    to "x", so none of them equals or contains "nonexistent"; yet
    [refactor_step] does not return the empty list: the scan raises
    IndexError at broken(). *)
Theorem no_match_raises_on_empty_call :
  map (fun p => fst (_step_decorator_args Sample.file_broken (snd (snd p))))
      (_iter_step_func_decorators Sample.file_broken)
    = [inr PyNone; inr (PyString "x")] /\
  fst (fst (refactor_step Sample.file_broken "nonexistent" "x" [])) =
    inl (IndexError_ "list index out of range") /\
  fst (fst (refactor_step Sample.file_broken "nonexistent" "x" [])) <> inr [].
Proof. split; [reflexivity | split; [reflexivity | discriminate]]. Qed.

(** A function whose step decorator has at least one argument and
    resolves to None (too many arguments, a literal of another type, or a
    literal that cannot be evaluated) is passed over by the location scan. *)
Lemma find_step_loop_skips_unresolved (self : RedbaronPythonFile) (step_text : string)
    (i j : nat) (f : DefNode) (d : DecoratorNode)
    (rest : list ((nat * DefNode) * (nat * DecoratorNode)))
    (l : list string) (arg : ValueNode) :
  _step_decorator_args self d = (inr PyNone, l) ->
  first_arg d = (inr arg, []) ->
  find_step_loop self step_text (((i, f), (j, d)) :: rest) =
  (fst (find_step_loop self step_text rest),
   l ++ snd (find_step_loop self step_text rest)).
Proof.
  intros Hs Ha. cbn [find_step_loop]. rewrite Hs, Ha. cbn [bind py_eq_str].
  now destruct (find_step_loop self step_text rest).
Qed.

(** When the scan ends without a match, [refactor_step] returns no edit
    and leaves the object as it was. *)
Lemma refactor_step_no_match (self : RedbaronPythonFile) (old_text new_text : string)
    (move : list Z) (l : list string) :
  _find_step_node self old_text = (inr None, l) ->
  refactor_step self old_text new_text move = (inr [], self, l) /\
  get_code (snd (fst (refactor_step self old_text new_text move))) = get_code self.
Proof. intros H. unfold refactor_step. now rewrite H. Qed.

(** The scan ends without a match when every step decorator has a first
    argument, resolves without an uncaught exception, and its value neither
    equals the text nor is a list containing it. *)
Lemma find_step_loop_no_match (self : RedbaronPythonFile) (step_text : string)
    (pairs : list ((nat * DefNode) * (nat * DecoratorNode))) :
  Forall (fun p =>
            exists step l arg,
              _step_decorator_args self (snd (snd p)) = (inr step, l) /\
              first_arg (snd (snd p)) = (inr arg, []) /\
              py_eq_str step step_text = false /\
              (forall items, step = PyList items -> py_in step_text items = false))
         pairs ->
  exists l, find_step_loop self step_text pairs = (inr None, l).
Proof.
  induction 1 as [|[[i f] [j d]] pairs (step & l & arg & Hs & Ha & Hne & Hnin) _ [l' IH]].
  - now exists [].
  - cbn [find_step_loop]. cbn [snd] in Hs, Ha. rewrite Hs, Ha. cbn [bind]. rewrite Hne.
    destruct step as [| | | |items| |]; try (rewrite IH; solve [eauto]).
    rewrite (Hnin items eq_refl), IH. eauto.
Qed.

(** ** The text around an edit *)

Section Frame.


Lemma alter_middle {A : Type} (g : A -> A) (l : list A) (i : nat) (x : A) :
  l !! i = Some x -> alter g i l = take i l ++ g x :: drop (S i) l.
Proof.
  intros H. rewrite <- (take_drop_middle l i x H) at 1.
  assert (Hlen : length (take i l) = i).
  { apply length_take_le. apply lookup_lt_Some in H. lia. }
  transitivity (alter g (length (take i l) + 0) (take i l ++ x :: drop (S i) l)).
  - now rewrite Hlen, Nat.add_0_r.
  - now rewrite alter_app_r.
Qed.

Lemma alter_at_length {A : Type} (g : A -> A) (pre post : list A) (x : A) :
  alter g (length pre) (pre ++ x :: post) = pre ++ g x :: post.
Proof.
  transitivity (alter g (length pre + 0) (pre ++ x :: post)).
  - now rewrite Nat.add_0_r.
  - now rewrite alter_app_r.
Qed.


(** The text of a tree, split around the parameters of one function. *)
Lemma dumps_around_def (pre post : list Node) (f : DefNode) :
  dumps (pre ++ Def f :: post) =
  dumps pre +:+ dumps_decorators (decorators f) +:+ def_head f +:+ def_name f +:+
  def_open f +:+ dumps_arguments (arguments f) +:+ def_tail f +:+ dumps post.
Proof.
  rewrite dumps_app, dumps_cons. cbn [dumps_node]. unfold dumps_def.
  now rewrite !app_assoc_s.
Qed.

(** The text of the decorators, split around the value of the first
    argument of one of them. *)
Lemma dumps_decorators_around_arg (ds : list DecoratorNode) (j : nat)
    (d : DecoratorNode) (c : CallNode) (a : CallArgumentNode)
    (sep : string) (rest : list (CallArgumentNode * string)) :
  ds !! j = Some d -> call d = Some c -> call_value c = (a, sep) :: rest ->
  dumps_decorators ds =
  dumps_decorators (take j ds) +:+ "@" +:+ name d +:+ dotted d +:+ "(" +:+
  call_lead c +:+ target a +:+ dumps_value (arg_value a) +:+ sep +:+
  dumps_items dumps_call_argument rest +:+ ")" +:+ dec_end d +:+
  dumps_decorators (drop (S j) ds).
Proof.
  intros Hj Hc Ha. rewrite <- (take_drop_middle ds j d Hj) at 1.
  rewrite dumps_decorators_app, dumps_decorators_cons.
  unfold dumps_decorator, dumps_call. rewrite Hc, Ha.
  cbn [dumps_items fold_right fst snd]. unfold dumps_call_argument.
  fold (dumps_items dumps_call_argument rest).
  now rewrite !app_assoc_s.
Qed.

(** Assigning through the reference rewrites that value alone. *)
Lemma decorators_after_set (g : ValueNode -> ValueNode) (ds : list DecoratorNode) (j : nat)
    (d : DecoratorNode) (c : CallNode) (a : CallArgumentNode)
    (sep : string) (rest : list (CallArgumentNode * string)) :
  ds !! j = Some d -> call d = Some c -> call_value c = (a, sep) :: rest ->
  exists d',
    alter (on_first_arg g) j ds = take j ds ++ d' :: drop (S j) ds /\
    name d' = name d /\ dotted d' = dotted d /\ dec_end d' = dec_end d /\
    call d' = Some {| call_lead := call_lead c;
                      call_value := ({| target := target a; arg_value := g (arg_value a) |},
                                     sep) :: rest |}.
Proof.
  intros Hj Hc Ha. exists (on_first_arg g d).
  split; [now apply alter_middle|].
  unfold on_first_arg. rewrite Hc. destruct c as [cl cv]. cbn in Ha. subst cv.
  repeat split.
Qed.

End Frame.

Section ListElement.

Import PyStr.


(** The scan stops at a function whose step list contains the text. *)
Lemma find_step_loop_head_list (self : RedbaronPythonFile) (step_text : string)
    (i j : nat) (f : DefNode) (d : DecoratorNode)
    (rest : list ((nat * DefNode) * (nat * DecoratorNode)))
    (l : list PyValue) (arg : ValueNode) (r : NodeRef) :
  _step_decorator_args self d = (inr (PyList l), []) ->
  first_arg d = (inr arg, []) ->
  py_in step_text l = true ->
  getitem arg i j (py_index step_text l) = (inr r, []) ->
  find_step_loop self step_text (((i, f), (j, d)) :: rest) = (inr (Some (r, i)), []).
Proof.
  intros Hs Ha Hin Hget. cbn [find_step_loop]. rewrite Hs, Ha. cbn [bind py_eq_str].
  now rewrite Hin, Hget.
Qed.

End ListElement.




(** ** Parsing and dumping *)

(** For a text T that RedBaron parses, passed as content or read from the
    file, [parse] returns an object that holds the tree RedBaron built, and
    [get_code] of that object, not modified in between, is what that tree
    dumps to.  Whether this is T again is RedBaron's matter. *)
Lemma parse_keeps_the_tree
    (open_read : string -> Exception + string)
    (RedBaron : string -> Exception + list Node)
    (path : string) (content : option string) (T : string) (t : list Node) :
  match content with Some c => inr c | None => open_read path end = inr T ->
  RedBaron T = inr t ->
  parse open_read RedBaron path content
    = (Some {| file_path := path; py_tree := t |}, []) /\
  get_code {| file_path := path; py_tree := t |} = dumps t.
Proof.
  intros Hsrc Hparse. unfold parse. rewrite Hsrc, Hparse. split; reflexivity.
Qed.

Lemma parameter_edit_keeps_bare_names_witness :
  exists self' f',
    func_at (py_tree self') 0 = Some f' /\
    param_names (arguments f') = ["arg1"; "a"] /\
    dumps_arguments (arguments f') = "arg1, a".
Proof.
  destruct (parameter_edit_keeps_bare_names Sample.file_g
              (snd (fst (refactor_step Sample.file_g "old" "new" [(-1)%Z; 0%Z])))
              "old" "new" [(-1)%Z; 0%Z]
              ({| startLine := 1; startCol := 6; endLine := 1; endCol := 11 |},
               PyStr.quoted "new")
              {| startLine := 2; startCol := 6; endLine := 2; endCol := 10 |}
              "arg1, a" [] eq_refl)
    as (i & f & f' & names & Hf & Hnames & _ & Htxt & Hf' & Hp & Hd & _).
  assert (Hi : i = 0).
  { destruct i as [|i]; [reflexivity|]. destruct i; discriminate Hf. }
  subst i. inversion Hf; subst f.
  assert (Hn : names = ["arg1"; "a"]) by (vm_compute in Hnames; congruence).
  rewrite Hn in Hp. eexists _, f'. split; [exact Hf'|]. split; [exact Hp | exact Hd].
Defined.

(** * Further properties of the code *)

(** ** Which functions the scan takes *)

Lemma first_step_decorator_spec (k j : nat) (decs : list DecoratorNode) (d : DecoratorNode) :
  first_step_decorator k decs = Some (j, d) <->
  k <= j /\ decs !! (j - k) = Some d /\ name d = "step" /\
  (forall j' d', j' < j - k -> decs !! j' = Some d' -> name d' <> "step").
Proof.
  revert k; induction decs as [|d0 decs IH]; intros k.
  - split; [discriminate | intros (_ & H & _); discriminate].
  - cbn [first_step_decorator]. destruct (String.eqb_spec (name d0) "step") as [E|E].
    + split.
      * intros H; inversion H; subst. rewrite Nat.sub_diag.
        repeat split; auto. intros j' d' Hlt; lia.
      * intros (Hle & Hl & Hn & Hfirst).
        destruct (j - k) as [|n] eqn:En.
        -- cbn in Hl. inversion Hl; subst. f_equal. f_equal. lia.
        -- exfalso. apply (Hfirst 0 d0); [lia | reflexivity | exact E].
    + rewrite IH. split.
      * intros (Hle & Hl & Hn & Hfirst).
        replace (j - k) with (S (j - S k)) by lia.
        repeat split; [lia | exact Hl | exact Hn |].
        intros [|j'] d' Hlt Hd'; [cbn in Hd'; inversion Hd'; now subst|].
        apply (Hfirst j' d'); [lia | exact Hd'].
      * intros (Hle & Hl & Hn & Hfirst).
        destruct (j - k) as [|n] eqn:En.
        -- cbn in Hl. inversion Hl; subst. contradiction.
        -- cbn in Hl. replace (j - S k) with n by lia.
           repeat split; [lia | exact Hl | exact Hn |].
           intros j' d' Hlt Hd'. apply (Hfirst (S j') d'); [lia | exact Hd'].
Qed.

Lemma step_func_decorators_complete (k : nat) (nodes : list Node)
    (i : nat) (f : DefNode) (jd : nat * DecoratorNode) :
  k <= i -> nodes !! (i - k) = Some (Def f) ->
  first_step_decorator 0 (decorators f) = Some jd ->
  In ((i, f), jd) (step_func_decorators_from k nodes).
Proof.
  revert k; induction nodes as [|n nodes IH]; intros k Hle Hl Hd; [discriminate|].
  destruct (i - k) as [|m] eqn:Em.
  - cbn in Hl. inversion Hl; subst. rewrite step_func_decorators_from_def, Hd.
    left. f_equal. f_equal. lia.
  - cbn in Hl. assert (Hin : In ((i, f), jd) (step_func_decorators_from (S k) nodes)).
    { apply IH; [lia | now replace (i - S k) with m by lia | exact Hd]. }
    destruct n as [g|t text].
    + rewrite step_func_decorators_from_def.
      destruct (first_step_decorator 0 (decorators g)); [now right | exact Hin].
    + now rewrite step_func_decorators_from_other.
Qed.

Lemma step_func_decorators_first (k : nat) (nodes : list Node)
    (i j : nat) (f : DefNode) (d : DecoratorNode) :
  In ((i, f), (j, d)) (step_func_decorators_from k nodes) ->
  first_step_decorator 0 (decorators f) = Some (j, d).
Proof.
  revert k; induction nodes as [|n nodes IH]; intros k H; [contradiction|].
  destruct n as [g|t text].
  - rewrite step_func_decorators_from_def in H.
    destruct (first_step_decorator 0 (decorators g)) as [jd|] eqn:E; [|eauto].
    destruct H as [H|H]; [|eauto]. now inversion H; subst.
  - rewrite step_func_decorators_from_other in H. eauto.
Qed.

(** X1. The scan pairs a node with a decorator exactly when the node is
    a top-level function definition, the decorator is one of its decorators
    named step, and no decorator before it on that function is named step.
    Nested definitions, other nodes and later step decorators never appear. *)
Theorem scan_takes_first_step_decorator_of_top_level_defs
    (self : RedbaronPythonFile) (i j : nat) (f : DefNode) (d : DecoratorNode) :
  In ((i, f), (j, d)) (_iter_step_func_decorators self) <->
  py_tree self !! i = Some (Def f) /\ decorators f !! j = Some d /\ name d = "step" /\
  (forall j' d', j' < j -> decorators f !! j' = Some d' -> name d' <> "step").
Proof.
  unfold _iter_step_func_decorators. split.
  - intros H. pose proof (step_func_decorators_first _ _ _ _ _ _ H) as Hfirst.
    apply step_func_decorators_sound in H as (_ & Hl & _).
    rewrite Nat.sub_0_r in Hl. apply first_step_decorator_spec in Hfirst
      as (_ & Hd & Hn & Hno). rewrite Nat.sub_0_r in Hd, Hno. auto.
  - intros (Hl & Hd & Hn & Hno). apply step_func_decorators_complete; [lia | |].
    + now rewrite Nat.sub_0_r.
    + apply first_step_decorator_spec. rewrite !Nat.sub_0_r. repeat split; auto. lia.
Qed.

Lemma step_func_decorators_from_increasing (k : nat) (nodes : list Node)
    (a b : nat) (pa pb : (nat * DefNode) * (nat * DecoratorNode)) :
  a < b ->
  step_func_decorators_from k nodes !! a = Some pa ->
  step_func_decorators_from k nodes !! b = Some pb ->
  fst (fst pa) < fst (fst pb).
Proof.
  revert k a b; induction nodes as [|n nodes IH]; intros k a b Hab Ha Hb; [discriminate|].
  assert (Hcons : forall p, (p :: step_func_decorators_from (S k) nodes) !! a = Some pa ->
                    (p :: step_func_decorators_from (S k) nodes) !! b = Some pb ->
                    fst (fst p) = k -> fst (fst pa) < fst (fst pb)).
  { intros p Ha' Hb' Hp. destruct b as [|b]; [lia|]. cbn in Hb'.
    destruct a as [|a].
    - cbn in Ha'. inversion Ha'; subst pa. rewrite Hp.
      destruct pb as [[ib fb] [jb db]]. apply list_elem_of_lookup_2 in Hb'.
      apply list_elem_of_In, step_func_decorators_sound in Hb' as (Hle & _). cbn. lia.
    - cbn in Ha'. apply (IH (S k) a b); [lia | exact Ha' | exact Hb']. }
  destruct n as [g|t text].
  - rewrite step_func_decorators_from_def in Ha, Hb.
    destruct (first_step_decorator 0 (decorators g)) as [jd|]; [|now apply (IH (S k) a b)].
    now apply (Hcons ((k, g), jd)).
  - rewrite step_func_decorators_from_other in Ha, Hb. now apply (IH (S k) a b).
Qed.

(** X2. The pairs of the scan come in source order and a function is
    paired at most once: along the sequence the index of the function in the
    tree grows strictly. *)
Theorem scan_in_source_order_once_per_function
    (self : RedbaronPythonFile) (a b : nat)
    (pa pb : (nat * DefNode) * (nat * DecoratorNode)) :
  a < b ->
  _iter_step_func_decorators self !! a = Some pa ->
  _iter_step_func_decorators self !! b = Some pb ->
  fst (fst pa) < fst (fst pb).
Proof. apply step_func_decorators_from_increasing. Qed.

Lemma scan_in_source_order_once_per_function_witness :
  map (fun p => fst (fst p)) (_iter_step_func_decorators Sample.file_broken) = [0; 1] /\
  0 < 1.
Proof.
  split; [reflexivity|].
  exact (scan_in_source_order_once_per_function Sample.file_broken 0 1
           ((0, Sample.def_broken), (0, Sample.step_decorator []))
           ((1, Sample.def_h),
            (0, Sample.step_decorator
                  [(Sample.positional (Sample.str_lit "x" (Sample.box_ 4 7 4 9)), "")]))
           (Nat.lt_0_succ 0) eq_refl eq_refl).
Defined.

(** ** What the resolver returns and logs *)

Lemma step_decorator_args_outcome (self : RedbaronPythonFile) (d : DecoratorNode) :
  match _step_decorator_args self d with
  | (inr v, l) =>
      (is_str_or_list v = true /\ l = []) \/
      (v = PyNone /\ (l = [msg_one_argument self] \/ l = [msg_string_or_list self]))
  | (inl e, l) =>
      l = [] /\ (call d = None \/ caught_by_resolver e = false)
  end.
Proof.
  unfold _step_decorator_args. destruct (call d) as [c|]; [|cbn; auto].
  destruct (call_value c) as [|a [|b rest]]; [cbn; auto | | cbn; auto].
  destruct (to_python (arg_value (fst a))) as [e|v].
  - destruct (caught_by_resolver e) eqn:E; cbn; auto.
  - rewrite bind_ret_l. destruct (is_str_or_list v) eqn:E; cbn; auto.
Qed.

(** X3. Whatever the decorator, [_step_decorator_args] either returns a
    string or a list and logs nothing, or returns None and logs exactly one
    of its two messages, or raises without logging; it raises only for a
    decorator without a call or for an exception of [to_python] other than
    ValueError and SyntaxError. *)
Theorem resolver_returns_step_or_logs_once
    (self : RedbaronPythonFile) (d : DecoratorNode) :
  match _step_decorator_args self d with
  | (inr v, l) =>
      (is_str_or_list v = true /\ l = []) \/
      (v = PyNone /\ (l = [msg_one_argument self] \/ l = [msg_string_or_list self]))
  | (inl e, l) =>
      l = [] /\ (call d = None \/ caught_by_resolver e = false)
  end.
Proof. exact (step_decorator_args_outcome self d). Qed.

(** X4. A step decorator with one argument that evaluates to something
    other than a string or a list (a number, None, a tuple, a dict), or whose
    evaluation raises ValueError or SyntaxError, resolves to None with the one
    message "accepts either a string or a list of strings"; when the scan
    takes it for a function, [iter_steps] yields no record for that function. *)
Theorem type_rule
    (self : RedbaronPythonFile) (d : DecoratorNode) (c : CallNode)
    (a : CallArgumentNode * string) :
  call d = Some c ->
  call_value c = [a] ->
  match to_python (arg_value (fst a)) with
  | inr v => is_str_or_list v = false
  | inl e => caught_by_resolver e = true
  end ->
  _step_decorator_args self d = (inr PyNone, [msg_string_or_list self]) /\
  forall (pre post : list Node) (f : DefNode) (j : nat),
    py_tree self = pre ++ Def f :: post ->
    first_step_decorator 0 (decorators f) = Some (j, d) ->
    iter_steps self =
      gen_then (iter_steps_loop self (step_func_decorators_from 0 pre))
        (gen_then (finished, [msg_string_or_list self])
           (iter_steps_loop self (step_func_decorators_from (S (length pre)) post))).
Proof.
  intros Hc Ha Hpy.
  assert (Hargs : _step_decorator_args self d = (inr PyNone, [msg_string_or_list self])).
  { unfold _step_decorator_args. rewrite Hc, Ha.
    destruct (to_python (arg_value (fst a))) as [e|v].
    - now rewrite Hpy.
    - rewrite bind_ret_l. now rewrite Hpy. }
  split; [exact Hargs|]. intros pre post f j Ht Hd.
  unfold iter_steps. rewrite (scan_split self pre post f j d Ht Hd), iter_steps_loop_app.
  f_equal. cbn [iter_steps_loop]. rewrite Hargs.
  now destruct (iter_steps_loop self _) as [[y r] l].
Qed.

Lemma type_rule_witness :
  exists d,
    _step_decorator_args Sample.file_g d =
      (inr PyNone,
       ["Decorator step accepts either a string or a list of strings - step_impl.py"]).
Proof.
  exists (Sample.step_decorator
            [(Sample.positional (AtomNode "int" "1" (inr (PyInt 1)) None), "")]).
  exact (proj1 (type_rule Sample.file_g
                  (Sample.step_decorator
                     [(Sample.positional (AtomNode "int" "1" (inr (PyInt 1)) None), "")])
                  {| call_lead := "";
                     call_value :=
                       [(Sample.positional (AtomNode "int" "1" (inr (PyInt 1)) None), "")] |}
                  (Sample.positional (AtomNode "int" "1" (inr (PyInt 1)) None), "")
                  eq_refl eq_refl eq_refl)).
Defined.

(** ** What discovery yields and logs *)

Lemma iter_steps_loop_accounts (self : RedbaronPythonFile)
    (pairs : list ((nat * DefNode) * (nat * DecoratorNode))) :
  length (yielded (fst (iter_steps_loop self pairs))) + length (snd (iter_steps_loop self pairs))
    <= length pairs /\
  Forall (fun fs => exists i f j d,
            In ((i, f), (j, d)) pairs /\
            fs = step_record self i f (steps fs) /\
            is_str_or_list (steps fs) = true /\ truthy (steps fs) = true /\
            _step_decorator_args self d = (inr (steps fs), []))
         (yielded (fst (iter_steps_loop self pairs))).
Proof.
  induction pairs as [|[[i f] [j d]] pairs [IHn IHr]].
  - split; [cbn; lia | constructor].
  - cbn [iter_steps_loop].
    pose proof (step_decorator_args_outcome self d) as Hres.
    destruct (_step_decorator_args self d) as [[e|step] l] eqn:Hargs.
    + destruct Hres as [-> _]. split; [cbn; lia | constructor].
    + destruct (iter_steps_loop self pairs) as [g l'] eqn:E. cbn [fst snd] in *.
      assert (Hmono : Forall (fun fs => exists i0 f0 j0 d0,
                  In ((i0, f0), (j0, d0)) (((i, f), (j, d)) :: pairs) /\
                  fs = step_record self i0 f0 (steps fs) /\
                  is_str_or_list (steps fs) = true /\ truthy (steps fs) = true /\
                  _step_decorator_args self d0 = (inr (steps fs), []))
                (yielded g)).
      { eapply Forall_impl; [exact IHr|].
        intros fs (i0 & f0 & j0 & d0 & Hin & Hrest).
        exists i0, f0, j0, d0. split; [now right | exact Hrest]. }
      destruct Hres as [[Hs ->]|[-> Hl]].
      * change ([] ++ l') with l'. destruct (truthy step) eqn:Ht.
        -- split; [cbn [yielded yield_ length]; lia|].
           constructor; [|exact Hmono].
           exists i, f, j, d. cbn [steps]. repeat split; auto. now left.
        -- split; [cbn [length]; lia | exact Hmono].
      * cbn [truthy]. split; [|exact Hmono].
        rewrite length_app. destruct Hl as [-> | ->]; cbn [length]; lia.
Qed.

Lemma discovery_accounts_for_every_function_aux (self : RedbaronPythonFile) :
  length (yielded (fst (iter_steps self))) + length (snd (iter_steps self))
    <= length (_iter_step_func_decorators self) /\
  Forall (fun fs => exists i f, fs = step_record self i f (steps fs))
         (yielded (fst (iter_steps self))).
Proof.
  unfold iter_steps.
  destruct (iter_steps_loop_accounts self (_iter_step_func_decorators self)) as [Hn Hr].
  split; [exact Hn|]. eapply Forall_impl; [exact Hr|].
  intros fs (i & f & j & d & _ & Hfs & _). eauto.
Qed.

(** X5. In [iter_steps] every function the scan takes gives at most one
    record or one logged error, never both: the records and the messages
    together are no more than the functions taken.  Every record carries a
    non-empty string or list that its decorator resolved without logging, the
    name of its function, the file path of the object and the deferred span
    of that function's node. *)
Theorem discovery_accounts_for_every_function (self : RedbaronPythonFile) :
  length (yielded (fst (iter_steps self))) + length (snd (iter_steps self))
    <= length (_iter_step_func_decorators self) /\
  Forall (fun fs => exists i f j d,
            py_tree self !! i = Some (Def f) /\
            first_step_decorator 0 (decorators f) = Some (j, d) /\
            fs = step_record self i f (steps fs) /\
            is_str_or_list (steps fs) = true /\ truthy (steps fs) = true /\
            _step_decorator_args self d = (inr (steps fs), []))
         (yielded (fst (iter_steps self))).
Proof.
  unfold iter_steps. destruct (iter_steps_loop_accounts self (_iter_step_func_decorators self))
    as [Hn Hr].
  split; [exact Hn|]. eapply Forall_impl; [exact Hr|].
  intros fs (i & f & j & d & Hin & Hrest). exists i, f, j, d.
  pose proof (step_func_decorators_first _ _ _ _ _ _ Hin) as Hfirst.
  apply step_func_decorators_sound in Hin as (_ & Hl & _). rewrite Nat.sub_0_r in Hl.
  auto.
Qed.

(** X6. A decorator named step without a call (a bare decorator) stops
    discovery: when it is the one the scan takes for a function that the scan
    reaches, [iter_steps] ends with AttributeError there, having yielded the
    records of the functions before it; nothing after it is yielded and the
    stop itself is not logged. *)
Theorem bare_step_decorator_stops_discovery
    (self : RedbaronPythonFile) (pre post : list Node) (f : DefNode)
    (j : nat) (d : DecoratorNode) :
  py_tree self = pre ++ Def f :: post ->
  first_step_decorator 0 (decorators f) = Some (j, d) ->
  call d = None ->
  raised (fst (iter_steps_loop self (step_func_decorators_from 0 pre))) = None ->
  yielded (fst (iter_steps self))
    = yielded (fst (iter_steps_loop self (step_func_decorators_from 0 pre))) /\
  snd (iter_steps self) = snd (iter_steps_loop self (step_func_decorators_from 0 pre)) /\
  exn_class <$> raised (fst (iter_steps self)) = Some AttributeError.
Proof.
  intros Ht Hd Hc Hraised. unfold iter_steps.
  rewrite (scan_split self pre post f j d Ht Hd), iter_steps_loop_app.
  unfold gen_then. rewrite Hraised. cbn [iter_steps_loop].
  unfold _step_decorator_args. rewrite Hc. cbn.
  rewrite !app_nil_r. auto.
Qed.

Lemma bare_step_decorator_stops_discovery_witness :
  exists self,
    yielded (fst (iter_steps self)) = [] /\
    exn_class <$> raised (fst (iter_steps self)) = Some AttributeError.
Proof.
  set (bare := {| name := "step"; dotted := ""; call := None; dec_end := PyStr.nl |}).
  set (f := with_decorators [bare] Sample.def_h).
  exists {| file_path := "step_impl.py"; py_tree := [Def f; Def Sample.def_h] |}.
  destruct (bare_step_decorator_stops_discovery
              {| file_path := "step_impl.py"; py_tree := [Def f; Def Sample.def_h] |}
              [] [Def Sample.def_h] f 0 bare eq_refl eq_refl eq_refl eq_refl)
    as (Hy & _ & He).
  split; [exact Hy | exact He].
Defined.

(** ** What the location scan finds *)

Lemma py_index_spec (text : string) (l : list PyValue) :
  py_in text l = true ->
  exists e, l !! py_index text l = Some e /\ py_eq_str e text = true /\
            forall k e', k < py_index text l -> l !! k = Some e' -> py_eq_str e' text = false.
Proof.
  induction l as [|v l IH]; [discriminate|].
  cbn [py_in existsb py_index]. destruct (py_eq_str v text) eqn:E.
  - intros _. exists v. repeat split; auto. intros k e' Hlt; lia.
  - cbn [orb]. intros Hin. destruct (IH Hin) as (e & He & Heq & Hfirst).
    exists e. repeat split; auto.
    intros [|k] e' Hlt Hk; [cbn in Hk; inversion Hk; now subst|].
    apply (Hfirst k e'); [lia | exact Hk].
Qed.

Lemma resolved_inr (self : RedbaronPythonFile) (d : DecoratorNode) (v : PyValue)
    (l : list string) :
  _step_decorator_args self d = (inr v, l) -> resolved self d = Some v.
Proof. intros H. unfold resolved. now rewrite H. Qed.

Lemma resolved_one_argument (self : RedbaronPythonFile) (d : DecoratorNode) (v : PyValue)
    (c : CallNode) :
  resolved self d = Some v -> v <> PyNone -> call d = Some c ->
  exists a, call_value c = [a].
Proof.
  unfold resolved, _step_decorator_args. intros H Hv Hc. rewrite Hc in H.
  destruct (call_value c) as [|a [|b rest]]; [cbn in H | eauto | cbn in H];
    inversion H; subst; contradiction.
Qed.

(** The pairs of a successful scan, split at the match. *)
Lemma find_step_loop_found (self : RedbaronPythonFile) (text : string)
    (pairs : list ((nat * DefNode) * (nat * DecoratorNode)))
    (r : NodeRef) (i : nat) (l : list string) :
  find_step_loop self text pairs = (inr (Some (r, i)), l) ->
  exists p1 f j d p2 v arg,
    pairs = p1 ++ ((i, f), (j, d)) :: p2 /\
    Forall (fun p => exists v', resolved self (snd (snd p)) = Some v' /\
                                matches text v' = false) p1 /\
    resolved self d = Some v /\ first_arg d = (inr arg, []) /\
    ((py_eq_str v text = true /\ r = StepRef i j None) \/
     (exists items, v = PyList items /\ py_in text items = true /\
                    getitem arg i j (py_index text items) = (inr r, []))).
Proof.
  revert l; induction pairs as [|[[i0 f0] [j0 d0]] pairs IH]; intros l H; [discriminate|].
  cbn [find_step_loop] in H.
  apply bind_inr in H as (step & la & lb & Hstep & H & _).
  apply bind_inr in H as (arg & lc & ld & Harg & H & _).
  assert (Hlc : lc = []).
  { apply first_arg_inv in Harg as (c & a & rest & _ & _ & _ & E). exact E. }
  subst lc.
  assert (Hrec : forall l', find_step_loop self text pairs = (inr (Some (r, i)), l') ->
            matches text step = false ->
            exists p1 f j d p2 v arg0,
              ((i0, f0), (j0, d0)) :: pairs = p1 ++ ((i, f), (j, d)) :: p2 /\
              Forall (fun p => exists v', resolved self (snd (snd p)) = Some v' /\
                                          matches text v' = false) p1 /\
              resolved self d = Some v /\ first_arg d = (inr arg0, []) /\
              ((py_eq_str v text = true /\ r = StepRef i j None) \/
               (exists items, v = PyList items /\ py_in text items = true /\
                              getitem arg0 i j (py_index text items) = (inr r, [])))).
  { intros l' H' Hno.
    destruct (IH _ H') as (p1 & f & j & d & p2 & v & arg0 & -> & Hp1 & Hrest).
    exists (((i0, f0), (j0, d0)) :: p1), f, j, d, p2, v, arg0.
    split; [reflexivity|]. split; [|exact Hrest].
    constructor; [|exact Hp1]. exists step. split; [|exact Hno].
    cbn [snd]. eapply resolved_inr; eauto. }
  destruct (py_eq_str step text) eqn:Eeq.
  { inversion H; subst. exists [], f0, j0, d0, pairs, step, arg.
    split; [reflexivity|]. split; [constructor|].
    split; [eapply resolved_inr; eauto|]. split; [exact Harg|]. now left. }
  destruct step as [| | | |items| |];
    try (apply (Hrec ld H); unfold matches; now rewrite Eeq).
  destruct (py_in text items) eqn:Ein.
  - apply bind_inr in H as (step_node & le & lf & Hget & H & _).
    inversion H; subst.
    assert (Hle : le = []).
    { unfold getitem in Hget. destruct arg; try discriminate.
      destruct (Nat.ltb _ _); inversion Hget; reflexivity. }
    subst le. exists [], f0, j0, d0, pairs, (PyList items), arg.
    split; [reflexivity|]. split; [constructor|].
    split; [eapply resolved_inr; eauto|]. split; [exact Harg|].
    right. exists items. auto.
  - apply (Hrec ld H). unfold matches. now rewrite Eeq, Ein.
Qed.

(** X7. What [_find_step_node] returns points into the tree and is a
    match.  The function is a top-level definition and the decorator is the
    first one named step on it, with exactly one argument.  Either that
    argument resolves to the text itself and the reference is the argument,
    or it resolves to a list and the reference is the item of the list
    literal at the position of the first element equal to the text. *)
Theorem found_reference_is_first_matching_literal
    (self : RedbaronPythonFile) (text : string) (r : NodeRef) (i : nat) (l : list string) :
  _find_step_node self text = (inr (Some (r, i)), l) ->
  exists f j d c a v n,
    py_tree self !! i = Some (Def f) /\
    first_step_decorator 0 (decorators f) = Some (j, d) /\
    call d = Some c /\ call_value c = [a] /\
    resolved self d = Some v /\
    node_at (py_tree self) r = Some n /\
    ((v = PyString text /\ r = StepRef i j None /\ n = arg_value (fst a)) \/
     (exists items k e,
        v = PyList items /\ r = StepRef i j (Some k) /\
        items !! k = Some e /\ py_eq_str e text = true /\
        (forall k' e', k' < k -> items !! k' = Some e' -> py_eq_str e' text = false))).
Proof.
  intros H. pose proof H as Hfound.
  apply find_step_node_sound in H as (f0 & n & j0 & item & Hf0 & -> & Hn).
  apply find_step_loop_found in Hfound
    as (p1 & f & j & d & p2 & v & arg & Hpairs & _ & Hv & Harg & Hmatch).
  assert (Hin : In ((i, f), (j, d)) (_iter_step_func_decorators self)).
  { fold (_iter_step_func_decorators self) in Hpairs. rewrite Hpairs.
    apply in_or_app. right. now left. }
  pose proof (step_func_decorators_first _ _ _ _ _ _ Hin) as Hfirst.
  apply step_func_decorators_sound in Hin as (_ & Hl & _). rewrite Nat.sub_0_r in Hl.
  apply first_arg_inv in Harg as (c & a & rest & Hc & Ha & -> & _).
  assert (Hne : v <> PyNone).
  { destruct Hmatch as [[E _]|(items & -> & _)]; [|discriminate].
    intros ->. discriminate. }
  destruct (resolved_one_argument self d v c Hv Hne Hc) as [a' Ha'].
  rewrite Ha' in Ha. inversion Ha; subst a' rest.
  exists f, j, d, c, a, v, n. repeat (split; [assumption|]).
  destruct Hmatch as [[E Hr]|(items & -> & Hin' & Hget)].
  - inversion Hr; subst. left. split.
    + destruct v; try discriminate. cbn in E. apply String.eqb_eq in E. now subst.
    + split; [reflexivity|].
      cbn in Hn. unfold func_at in Hn. rewrite Hl in Hn. cbn in Hn.
      apply first_step_decorator_sound in Hfirst as (_ & Hd & _).
      rewrite Nat.sub_0_r in Hd. rewrite Hd in Hn. cbn in Hn.
      rewrite Hc in Hn. cbn in Hn. rewrite Ha' in Hn. cbn in Hn. now inversion Hn.
  - right. destruct (py_index_spec text items Hin') as (e & He & Heq & Hfirst').
    unfold getitem in Hget. destruct (arg_value (fst a)); try discriminate.
    destruct (Nat.ltb _ _); [|discriminate]. inversion Hget; subst.
    exists items, (py_index text items), e. auto.
Qed.

Lemma found_reference_is_first_matching_literal_witness :
  exists n,
    node_at (py_tree Sample.file_f) (StepRef 0 0 (Some 1)) = Some n /\
    string_value n = Some (PyStr.quoted "a bar").
Proof.
  destruct (found_reference_is_first_matching_literal Sample.file_f "a bar"
              (StepRef 0 0 (Some 1)) 0 [] eq_refl)
    as (f & j & d & c & a & v & n & _ & _ & _ & _ & _ & Hn & _).
  exists n. split; [exact Hn|]. cbn in Hn. now inversion Hn.
Defined.

(** X8. The first match in source order wins: when [_find_step_node]
    returns the function at index i, every function the scan takes before it
    resolved without raising, and to a value that neither is the text nor is
    a list containing it. *)
Theorem first_match_in_source_order_wins
    (self : RedbaronPythonFile) (text : string) (r : NodeRef) (i : nat) (l : list string)
    (i' j' : nat) (f' : DefNode) (d' : DecoratorNode) :
  _find_step_node self text = (inr (Some (r, i)), l) ->
  In ((i', f'), (j', d')) (_iter_step_func_decorators self) ->
  i' < i ->
  exists v', resolved self d' = Some v' /\ matches text v' = false.
Proof.
  intros H Hin Hlt.
  apply find_step_loop_found in H
    as (p1 & f & j & d & p2 & v & arg & Hpairs & Hp1 & _).
  fold (_iter_step_func_decorators self) in Hpairs.
  apply list_elem_of_In, list_elem_of_lookup in Hin as [a Ha].
  assert (Hmid : _iter_step_func_decorators self !! length p1 = Some ((i, f), (j, d))).
  { rewrite Hpairs. now apply list_lookup_middle. }
  destruct (Nat.lt_trichotomy a (length p1)) as [Ha1|[Ha1|Ha1]].
  - rewrite Hpairs, lookup_app_l in Ha by exact Ha1.
    apply list_elem_of_lookup_2 in Ha.
    rewrite Forall_forall in Hp1. exact (Hp1 _ Ha).
  - subst a. rewrite Hmid in Ha. inversion Ha; subst. lia.
  - pose proof (step_func_decorators_from_increasing _ _ _ _ _ _ Ha1 Hmid Ha) as Hinc.
    cbn in Hinc. lia.
Qed.

Lemma first_match_in_source_order_wins_witness :
  exists v',
    resolved Sample.file_broken
      (Sample.step_decorator
         [(Sample.positional (AtomNode "int" "1" (inr (PyInt 1)) None), "")]) = Some v' /\
    matches "x" v' = false.
Proof.
  exact (first_match_in_source_order_wins
           {| file_path := "step_impl.py";
              py_tree := [Def (with_decorators
                                 [Sample.step_decorator
                                    [(Sample.positional
                                        (AtomNode "int" "1" (inr (PyInt 1)) None), "")]]
                                 Sample.def_broken);
                          Def Sample.def_h] |}
           "x" (StepRef 1 0 None) 1
           ["Decorator step accepts either a string or a list of strings - step_impl.py"]
           0 0 (with_decorators
                  [Sample.step_decorator
                     [(Sample.positional (AtomNode "int" "1" (inr (PyInt 1)) None), "")]]
                  Sample.def_broken)
           (Sample.step_decorator
              [(Sample.positional (AtomNode "int" "1" (inr (PyInt 1)) None), "")])
           eq_refl (or_introl eq_refl) (Nat.lt_0_succ 0)).
Defined.

(** ** What [refactor_step] leaves alone *)

Lemma same_decorator_outline_refl (d : DecoratorNode) : same_decorator_outline d d.
Proof. repeat split; auto. Qed.

Lemma same_outline_refl (n : Node) : same_outline n n.
Proof.
  destruct n as [f|t text]; cbn; [|auto]. repeat split.
  induction (decorators f); constructor; auto using same_decorator_outline_refl.
Qed.

Lemma same_outline_all_refl (t : list Node) : Forall2 same_outline t t.
Proof. induction t; constructor; auto using same_outline_refl. Qed.

Lemma Forall2_alter_refl {A : Type} (R : A -> A -> Prop) (g : A -> A) (i : nat) (l : list A) :
  (forall x, R x x) -> (forall x, R x (g x)) -> Forall2 R l (alter g i l).
Proof.
  intros Hrefl Hg. revert i; induction l as [|x l IH]; intros i; [constructor|].
  destruct i as [|i]; cbn; constructor; auto.
  clear IH. induction l; constructor; auto.
Qed.

Lemma same_decorator_outline_on_first_arg (g : ValueNode -> ValueNode) (d : DecoratorNode) :
  same_decorator_outline d (on_first_arg g d).
Proof.
  unfold on_first_arg. destruct (call d) as [[cl [|a rest]]|] eqn:E;
    unfold same_decorator_outline; rewrite ?E; cbn; repeat split; auto; discriminate.
Qed.

Lemma same_outline_set_value (t : list Node) (r : NodeRef) (v : string) :
  Forall2 same_outline t (set_value t r v).
Proof.
  destruct r as [i|i j item|i]; cbn [set_value]; try apply same_outline_all_refl.
  apply Forall2_alter_refl; [apply same_outline_refl|].
  intros [f|ty text]; cbn; [|auto]. repeat split.
  apply Forall2_alter_refl;
    auto using same_decorator_outline_refl, same_decorator_outline_on_first_arg.
Qed.

Lemma same_outline_set_arguments (t : list Node) (i : nat) (names : list string) :
  Forall2 same_outline t (set_arguments t i names).
Proof.
  apply Forall2_alter_refl; [apply same_outline_refl|].
  intros [f|ty text]; cbn; [|auto]. repeat split.
  induction (decorators f); constructor; auto using same_decorator_outline_refl.
Qed.

Lemma same_decorator_outline_trans (a b c : DecoratorNode) :
  same_decorator_outline a b -> same_decorator_outline b c -> same_decorator_outline a c.
Proof.
  unfold same_decorator_outline. intros (H1 & H2 & H3 & H4) (G1 & G2 & G3 & G4).
  repeat split; try congruence; tauto.
Qed.

Lemma same_outline_trans (a b c : Node) :
  same_outline a b -> same_outline b c -> same_outline a c.
Proof.
  destruct a as [fa|ta xa], b as [fb|tb xb], c as [fc|tc xc]; cbn; try tauto.
  - intros (H1 & H2 & H3 & H4 & H7) (G1 & G2 & G3 & G4 & G7).
    repeat split; try congruence.
    revert G7. generalize (decorators fc). induction H7; intros lc G7; inversion G7; subst;
      constructor; eauto using same_decorator_outline_trans.
  - intros [-> ->] [-> ->]. auto.
Qed.

Lemma lookup_set_value_ne (t : list Node) (i j : nat) (item : option nat) (v : string)
    (k : nat) :
  k <> i -> set_value t (StepRef i j item) v !! k = t !! k.
Proof. intros Hne. cbn [set_value]. apply list_lookup_alter_ne. auto. Qed.

(** X9. Whatever the arguments and whether it returns or raises,
    [refactor_step] keeps the file path, the number and order of the
    top-level nodes, every node that is not a function definition, and of
    every function its name, its text outside decorator calls and parameters,
    and the names of its decorators.  When the scan found the step in the
    function at index i, every other top-level node keeps its text;
    otherwise nothing was assigned and the object is the one passed in. *)
Theorem refactor_step_keeps_outline
    (self : RedbaronPythonFile) (old_text new_text : string) (move : list Z) :
  let self' := snd (fst (refactor_step self old_text new_text move)) in
  file_path self' = file_path self /\
  Forall2 same_outline (py_tree self) (py_tree self') /\
  match fst (_find_step_node self old_text) with
  | inr (Some (_, i)) =>
      forall k, k <> i ->
        dumps_node <$> py_tree self' !! k = dumps_node <$> py_tree self !! k
  | _ => self' = self
  end.
Proof.
  unfold refactor_step. cbv zeta.
  destruct (_find_step_node self old_text) as [[e|[[r i]|]] l] eqn:Hfind; cbn [fst snd].
  - repeat split. apply same_outline_all_refl.
  - destruct (find_step_node_sound _ _ _ _ _ Hfind) as (f & n & j & item & Hf & -> & Hn).
    rewrite Hn. cbn [mbind option_bind].
    pose proof (same_outline_all_refl (py_tree self)) as Hrefl.
    destruct (string_value n) as [value|]; cbn [fst snd]; [|auto].
    set (t1 := set_value (py_tree self) (StepRef i j item)
                 (PyStr.replace old_text new_text value)).
    assert (H1 : Forall2 same_outline (py_tree self) t1) by apply same_outline_set_value.
    assert (L1 : forall k, k <> i -> t1 !! k = py_tree self !! k).
    { intros k Hk. now apply lookup_set_value_ne. }
    rewrite py_tree_with_tree.
    destruct (func_at t1 i) as [f1|]; cbn [fst snd];
      [|repeat split; auto; intros k Hk; now rewrite L1].
    destruct (params_unmoved (arguments f1) move); cbn [fst snd];
      [repeat split; auto; intros k Hk; now rewrite L1|].
    destruct (new_params_loop (arguments f1) (PyStr.enumerate move)) as [e|names];
      cbn [fst snd]; [repeat split; auto; intros k Hk; now rewrite L1|].
    rewrite !py_tree_with_tree. repeat split.
    + eapply Forall2_trans; [apply same_outline_trans | exact H1 |].
      apply same_outline_set_arguments.
    + intros k Hk. unfold set_arguments. rewrite list_lookup_alter_ne by auto.
      now rewrite L1.
  - repeat split. apply same_outline_all_refl.
Qed.

(** ** The text of the tree around any edit *)

Lemma dumps_items_app {A : Type} (g : A -> string) (l1 l2 : list (A * string)) :
  dumps_items g (l1 ++ l2) = dumps_items g l1 +:+ dumps_items g l2.
Proof.
  induction l1 as [|x l1 IH]; [reflexivity|].
  change (g (fst x) +:+ snd x +:+ dumps_items g (l1 ++ l2)
          = (g (fst x) +:+ snd x +:+ dumps_items g l1) +:+ dumps_items g l2).
  now rewrite IH, !app_assoc_s.
Qed.

Lemma dumps_value_list (lead : string) (items : list (ValueNode * string))
    (py : Exception + PyValue) (b : option BoundingBox) :
  dumps_value (ListNode lead items py b)
  = "[" +:+ lead +:+ dumps_items dumps_value items +:+ "]".
Proof.
  cbn [dumps_value].
  assert (Hgo : forall l : list (ValueNode * string),
            (fix go (l : list (ValueNode * string)) : string :=
               match l with
               | [] => ""
               | it :: rest => dumps_value (fst it) +:+ snd it +:+ go rest
               end) l = dumps_items dumps_value l).
  { induction l as [|x l IH]; [reflexivity|].
    change (dumps_items dumps_value (x :: l))
      with (dumps_value (fst x) +:+ snd x +:+ dumps_items dumps_value l).
    now rewrite <- IH. }
  now rewrite Hgo.
Qed.

(** The text of a value, split around the literal a reference selects. *)
Lemma dumps_value_around_literal (n0 : ValueNode) (item : option nat) (v v' : string) :
  match item with
  | None => Some n0
  | Some k => match n0 with
              | ListNode _ items _ _ => fst <$> items !! k
              | _ => None
              end
  end ≫= string_value = Some v ->
  exists A B,
    dumps_value n0 = A +:+ v +:+ B /\
    dumps_value (match item with
                 | None => set_string_value v'
                 | Some k => on_item k (set_string_value v')
                 end n0) = A +:+ v' +:+ B.
Proof.
  destruct item as [k|].
  - destruct n0 as [|lead items py b|]; try discriminate.
    destruct (items !! k) as [[x s]|] eqn:Hk; [|discriminate].
    intros H; cbn in H. destruct x as [w pyx bx| |]; try discriminate.
    inversion H; subst w.
    exists ("[" +:+ lead +:+ dumps_items dumps_value (take k items)),
           (s +:+ dumps_items dumps_value (drop (S k) items) +:+ "]").
    cbn [on_item]. rewrite !dumps_value_list.
    rewrite (alter_middle _ items k _ Hk).
    rewrite <- (take_drop_middle items k _ Hk) at 1.
    rewrite !dumps_items_app.
    change (dumps_items dumps_value (?x :: ?l))
      with (dumps_value (fst x) +:+ snd x +:+ dumps_items dumps_value l).
    cbn [fst snd set_string_value dumps_value].
    now rewrite !app_assoc_s.
  - intros H; cbn in H. destruct n0 as [w py b| |]; try discriminate.
    inversion H; subst w. exists "", "". cbn [set_string_value dumps_value].
    now rewrite !app_empty_r.
Qed.

Lemma node_at_inv (t : list Node) (i j : nat) (item : option nat) (v : string) :
  node_at t (StepRef i j item) ≫= string_value = Some v ->
  exists f d c a sep rest,
    func_at t i = Some f /\ decorators f !! j = Some d /\ call d = Some c /\
    call_value c = (a, sep) :: rest /\
    match item with
    | None => Some (arg_value a)
    | Some k => match arg_value a with
                | ListNode _ items _ _ => fst <$> items !! k
                | _ => None
                end
    end ≫= string_value = Some v.
Proof.
  cbn [node_at]. destruct (func_at t i) as [f|] eqn:Hf; [|discriminate]. cbn.
  destruct (decorators f !! j) as [d|] eqn:Hd; [|discriminate]. cbn.
  destruct (call d) as [c|] eqn:Hc; [|discriminate]. cbn.
  destruct (call_value c) as [|[a sep] rest] eqn:Ha; [discriminate|]. cbn.
  intros H. exists f, d, c, a, sep, rest. repeat split; auto.
Qed.

Lemma func_at_split (t : list Node) (i : nat) (f : DefNode) :
  func_at t i = Some f ->
  t = take i t ++ Def f :: drop (S i) t /\ length (take i t) = i.
Proof.
  unfold func_at. destruct (t !! i) as [[g|ty text]|] eqn:E; try discriminate.
  intros H; inversion H; subst g. split.
  - symmetry. now apply take_drop_middle.
  - apply length_take_le. apply lookup_lt_Some in E. lia.
Qed.

(** X10. When [refactor_step] finds the step in a string literal and
    every index of the move list is in range, it returns: one edit, or two
    when the move list changes the parameters.  The text of the tree before
    is X v Y P Z, with v the literal and P the parameter list of the function,
    and the text after is X v' Y P' Z with the same X, Y and Z, where v' and P'
    are the replacement texts of the edits (P' is P when there is one edit). *)
Theorem refactor_step_changes_only_literal_and_parameters
    (self : RedbaronPythonFile) (old_text new_text : string) (move : list Z)
    (r : NodeRef) (i : nat) (l : list string) (v : string) (f : DefNode) :
  _find_step_node self old_text = (inr (Some (r, i)), l) ->
  node_at (py_tree self) r ≫= string_value = Some v ->
  func_at (py_tree self) i = Some f ->
  (forall m, In m move -> (m < Z.of_nat (length (arguments f)))%Z) ->
  exists X Y Z edits self' step_span P',
    refactor_step self old_text new_text move = (inr edits, self', l) /\
    (edits = [(step_span, PyStr.replace old_text new_text v)] /\
     P' = dumps_arguments (arguments f)
     \/ exists params_span,
          edits = [(step_span, PyStr.replace old_text new_text v); (params_span, P')]) /\
    get_code self = X +:+ v +:+ Y +:+ dumps_arguments (arguments f) +:+ Z /\
    get_code self' = X +:+ PyStr.replace old_text new_text v +:+ Y +:+ P' +:+ Z.
Proof.
  intros Hfind Hv Hf Hrange.
  destruct (find_step_node_sound _ _ _ _ _ Hfind) as (f0 & n & j & item & _ & -> & _).
  destruct (node_at_inv _ _ _ _ _ Hv) as (f1 & d & c & a & sep & rest & Hf1 & Hj & Hc & Ha & Hlit).
  rewrite Hf in Hf1. inversion Hf1; subst f1. clear Hf1.
  destruct (func_at_split _ _ _ Hf) as [Ht Hlen].
  set (pre := take i (py_tree self)) in *. set (post := drop (S i) (py_tree self)) in *.
  set (v' := PyStr.replace old_text new_text v).
  set (g := match item with
            | None => set_string_value v'
            | Some k => on_item k (set_string_value v')
            end).
  destruct (dumps_value_around_literal (arg_value a) item v v' Hlit) as (A & B & HA & HB).
  fold g in HB.
  set (X := dumps pre +:+ dumps_decorators (take j (decorators f)) +:+
            "@" +:+ name d +:+ dotted d +:+ "(" +:+ call_lead c +:+ target a +:+ A).
  set (Y := B +:+ sep +:+ dumps_items dumps_call_argument rest +:+ ")" +:+ dec_end d +:+
            dumps_decorators (drop (S j) (decorators f)) +:+
            def_head f +:+ def_name f +:+ def_open f).
  set (Z := def_tail f +:+ dumps post).
  assert (Hold : get_code self = X +:+ v +:+ Y +:+ dumps_arguments (arguments f) +:+ Z).
  { unfold get_code. rewrite Ht, dumps_around_def.
    rewrite (dumps_decorators_around_arg _ j d c a sep rest Hj Hc Ha), HA.
    unfold X, Y, Z. now rewrite !app_assoc_s. }
  destruct (decorators_after_set g _ j d c a sep rest Hj Hc Ha)
    as (d' & Hds & Hname & Hdot & Hend & Hcall).
  assert (Htree1 : set_value (py_tree self) (StepRef i j item) v' =
                   pre ++ Def (with_decorators
                                 (take j (decorators f) ++ d' :: drop (S j) (decorators f)) f)
                       :: post).
  { cbn [set_value]. fold g. rewrite Ht at 1. rewrite <- Hlen at 1.
    rewrite alter_at_length. cbn [on_def]. now rewrite Hds. }
  assert (Hdumps1 : forall args,
            dumps (pre ++ Def (with_arguments args
                                 (with_decorators
                                    (take j (decorators f) ++ d' :: drop (S j) (decorators f))
                                    f)) :: post) =
            X +:+ v' +:+ Y +:+ dumps_arguments args +:+ Z).
  { intros args. rewrite dumps_around_def.
    cbn [decorators def_head def_name def_open arguments def_tail
           with_arguments with_decorators].
    rewrite dumps_decorators_app, dumps_decorators_cons. unfold dumps_decorator, dumps_call.
    rewrite Hcall, Hname, Hdot, Hend.
    cbn [call_lead call_value]. 
    change (dumps_items dumps_call_argument (?x :: ?l))
      with (dumps_call_argument (fst x) +:+ snd x +:+ dumps_items dumps_call_argument l).
    unfold dumps_call_argument at 1. cbn [target arg_value fst snd]. rewrite HB.
    unfold X, Y, Z. now rewrite !app_assoc_s. }
  rewrite (refactor_step_found _ _ _ _ _ _ _ _ _ Hfind Hv Hf). cbn zeta. fold v'.
  destruct (params_unmoved (arguments f) move).
  - exists X, Y, Z. eexists _, _, _, (dumps_arguments (arguments f)).
    split; [reflexivity|]. split; [left; split; reflexivity|]. split; [exact Hold|].
    unfold get_code. rewrite py_tree_with_tree, Htree1.
    rewrite <- (Hdumps1 (arguments f)). reflexivity.
  - destruct (new_params_loop_total (arguments f) move 0 Hrange) as [names Hnames].
    unfold PyStr.enumerate. rewrite Hnames.
    exists X, Y, Z. eexists _, _, _, (PyStr.join ", " names).
    split; [reflexivity|]. split; [right; eexists; reflexivity|]. split; [exact Hold|].
    unfold get_code. rewrite !py_tree_with_tree, Htree1.
    unfold set_arguments. rewrite <- Hlen at 1. rewrite alter_at_length. cbn [on_def].
    now rewrite Hdumps1, dumps_arguments_of_names.
Qed.

Lemma refactor_step_changes_only_literal_and_parameters_witness :
  exists X Y Z,
    get_code Sample.file_g = X +:+ PyStr.quoted "old" +:+ Y +:+ "a, b" +:+ Z /\
    get_code (snd (fst (refactor_step Sample.file_g "old" "new" [(-1)%Z; 0%Z])))
      = X +:+ PyStr.quoted "new" +:+ Y +:+ "arg1, a" +:+ Z.
Proof.
  assert (Hrange : forall m, In m [(-1)%Z; 0%Z] ->
                     (m < Z.of_nat (length (arguments Sample.def_g)))%Z).
  { intros m [<-|[<-|[]]]; cbn; lia. }
  destruct (refactor_step_changes_only_literal_and_parameters Sample.file_g "old" "new"
              [(-1)%Z; 0%Z] (StepRef 0 0 None) 0 [] (PyStr.quoted "old") Sample.def_g
              eq_refl eq_refl eq_refl Hrange)
    as (X & Y & Z & edits & self' & sp & P' & Hr & Hed & Hold & Hnew).
  exists X, Y, Z. split; [exact Hold|]. rewrite Hr. cbn [fst snd]. rewrite Hnew.
  destruct Hed as [ [He _] | [sp2 He] ]; rewrite He in Hr; vm_compute in Hr.
  - discriminate Hr.
  - inversion Hr. reflexivity.
Defined.

(** ** When [refactor_step] raises midway *)

Lemma params_unmoved_in_range (old_params : CommaProxyList DefArgumentNode) (move : list Z) :
  params_unmoved old_params move = true ->
  forall m, In m move -> (0 <= m < Z.of_nat (length old_params))%Z.
Proof.
  unfold params_unmoved, PyStr.enumerate. intros H.
  apply andb_prop in H as [Hlen Hall]. apply Nat.eqb_eq in Hlen. rewrite Hlen. clear Hlen.
  assert (Hgen : forall k, forallb (fun iv => Z.eqb (Z.of_nat (fst iv)) (snd iv))
                             (PyStr.enumerate_from k move) = true ->
                   forall m, In m move ->
                     (Z.of_nat k <= m < Z.of_nat (k + length move))%Z).
  { clear Hall. induction move as [|m0 move IH]; intros k H m Hin; [contradiction|].
    cbn in H. apply andb_prop in H as [H0 H]. apply Z.eqb_eq in H0.
    destruct Hin as [<-|Hin]; [cbn; lia|].
    specialize (IH (S k) H m Hin). cbn [length]. lia. }
  intros m Hin. specialize (Hgen 0 Hall m Hin). cbn in Hgen. lia.
Qed.

Lemma new_params_loop_out_of_range (old_params : CommaProxyList DefArgumentNode)
    (move : list Z) (k : nat) (m : Z) :
  In m move -> (Z.of_nat (length old_params) <= m)%Z ->
  new_params_loop old_params (PyStr.enumerate_from k move)
  = inl (IndexError_ "list index out of range").
Proof.
  revert k; induction move as [|m0 move IH]; intros k Hin Hm; [contradiction|].
  cbn [PyStr.enumerate_from new_params_loop].
  destruct (if (m0 <? 0)%Z then _ else _) as [n0|] eqn:E0; [|reflexivity].
  destruct Hin as [->|Hin].
  - exfalso. destruct (m <? 0)%Z eqn:Eneg; [apply Z.ltb_lt in Eneg; lia|].
    rewrite lookup_ge_None_2 in E0 by lia. discriminate.
  - now rewrite (IH (S k) Hin Hm).
Qed.

Lemma node_at_set_value (t : list Node) (i j : nat) (item : option nat) (v v' : string) :
  node_at t (StepRef i j item) ≫= string_value = Some v ->
  node_at (set_value t (StepRef i j item) v') (StepRef i j item) ≫= string_value = Some v'.
Proof.
  intros H. destruct (node_at_inv _ _ _ _ _ H) as (f & d & c & a & sep & rest & Hf & Hd & Hc & Ha & Hlit).
  cbn [node_at set_value]. rewrite func_at_alter, decide_True by reflexivity.
  rewrite Hf. cbn. rewrite list_lookup_alter_eq, Hd. cbn.
  unfold on_first_arg. rewrite Hc. destruct c as [cl cv]. cbn in Ha. subst cv. cbn.
  destruct item as [k|].
  - destruct (arg_value a) as [|lead items py b|]; try discriminate.
    cbn [on_item]. rewrite list_lookup_alter_eq.
    destruct (items !! k) as [[x s]|]; [|discriminate]. cbn in *.
    destruct x; try discriminate. reflexivity.
  - cbn in *. destruct (arg_value a); try discriminate. reflexivity.
Qed.

(** X11. [refactor_step] is not all-or-nothing.  When the step is found
    and the move list holds an index at or beyond the number of parameters,
    the call raises IndexError after the literal has been rewritten in the
    tree: no edit is returned, the literal holds the new text, the parameters
    are as before. *)
Theorem out_of_range_move_raises_after_literal_is_rewritten
    (self : RedbaronPythonFile) (old_text new_text : string) (move : list Z)
    (r : NodeRef) (i : nat) (l : list string) (v : string) (f : DefNode) (m : Z) :
  _find_step_node self old_text = (inr (Some (r, i)), l) ->
  node_at (py_tree self) r ≫= string_value = Some v ->
  func_at (py_tree self) i = Some f ->
  In m move ->
  (Z.of_nat (length (arguments f)) <= m)%Z ->
  exists self' f',
    refactor_step self old_text new_text move =
      (inl (IndexError_ "list index out of range"), self', l) /\
    node_at (py_tree self') r ≫= string_value
      = Some (PyStr.replace old_text new_text v) /\
    func_at (py_tree self') i = Some f' /\ arguments f' = arguments f.
Proof.
  intros Hfind Hv Hf Hin Hm.
  destruct (find_step_node_sound _ _ _ _ _ Hfind) as (f0 & n & j & item & _ & -> & _).
  rewrite (refactor_step_found _ _ _ _ _ _ _ _ _ Hfind Hv Hf). cbn zeta.
  destruct (params_unmoved (arguments f) move) eqn:Hun.
  { pose proof (params_unmoved_in_range _ _ Hun m Hin). lia. }
  unfold PyStr.enumerate. rewrite (new_params_loop_out_of_range _ _ 0 m Hin Hm).
  destruct (func_at_set_value (py_tree self) (StepRef i j item)
              (PyStr.replace old_text new_text v) i f Hf) as (f' & Hf' & Ha & _).
  eexists _, f'. split; [reflexivity|]. rewrite py_tree_with_tree.
  split; [now apply (node_at_set_value _ _ _ _ v)|]. split; [exact Hf' | exact Ha].
Qed.

Lemma out_of_range_move_raises_after_literal_is_rewritten_witness :
  fst (fst (refactor_step Sample.file_g "old" "new" [2%Z])) =
    inl (IndexError_ "list index out of range") /\
  get_code (snd (fst (refactor_step Sample.file_g "old" "new" [2%Z]))) <>
    get_code Sample.file_g.
Proof.
  destruct (out_of_range_move_raises_after_literal_is_rewritten Sample.file_g "old" "new"
              [2%Z] (StepRef 0 0 None) 0 [] (PyStr.quoted "old") Sample.def_g 2%Z
              eq_refl eq_refl eq_refl (or_introl eq_refl))
    as (self' & f' & Hr & _); [cbn; lia|].
  rewrite Hr. split; [reflexivity|]. vm_compute in Hr. inversion Hr; subst self'.
  vm_compute. discriminate.
Defined.

(** ** Refactoring without a match, and to the same text *)

(** X12. When every function the scan takes has a step decorator with a
    call and at least one argument, which resolves without raising to a value
    that neither is the text nor is a list containing it, [refactor_step]
    returns the empty list of edits and the object is exactly as before. *)
Theorem no_match_returns_no_edit
    (self : RedbaronPythonFile) (old_text new_text : string) (move : list Z) :
  (forall i f j d, In ((i, f), (j, d)) (_iter_step_func_decorators self) ->
     exists v arg, resolved self d = Some v /\ first_arg d = (inr arg, []) /\
                   matches old_text v = false) ->
  exists l, refactor_step self old_text new_text move = (inr [], self, l).
Proof.
  intros Hall.
  destruct (find_step_loop_no_match self old_text (_iter_step_func_decorators self))
    as [l Hl].
  - apply List.Forall_forall. intros [[i f] [j d]] Hin.
    destruct (Hall i f j d Hin) as (v & arg & Hv & Harg & Hm). cbn [snd].
    unfold resolved in Hv. destruct (_step_decorator_args self d) as [[e|v0] l0] eqn:E;
      [discriminate|]. cbn in Hv. inversion Hv; subst v0.
    unfold matches in Hm. apply orb_false_elim in Hm as [Hm1 Hm2].
    exists v, l0, arg. repeat split; auto. intros items ->. exact Hm2.
  - exists l. now apply refactor_step_no_match.
Qed.

Lemma no_match_returns_no_edit_witness :
  exists l, refactor_step Sample.file_f "nonexistent" "x" [] = (inr [], Sample.file_f, l).
Proof.
  apply no_match_returns_no_edit.
  intros i f j d [H|[]]. inversion H; subst.
  exists (PyList [PyString "a foo"; PyString "a bar"]), Sample.foo_bar_list.
  repeat split.
Defined.

Lemma replace_from_drop (old new : string) (k : nat) (s : string) :
  PyStr.replace_from k old new s = PyStr.replace_from 0 old new (drop_chars k s).
Proof.
  revert k; induction s as [|c s IH]; intros [|k]; try reflexivity.
  cbn [PyStr.replace_from drop_chars]. apply IH.
Qed.

Lemma prefix_drop (old s : string) :
  String.prefix old s = true -> s = old +:+ drop_chars (String.length old) s.
Proof.
  revert s; induction old as [|c old IH]; intros s H; [reflexivity|].
  destruct s as [|c' s]; [discriminate|]. cbn in H.
  destruct (Ascii.ascii_dec c c') as [->|]; [|discriminate].
  change (String c' s = String c' (old +:+ drop_chars (String.length old) s)).
  now rewrite <- (IH s H).
Qed.

Lemma drop_chars_length (k : nat) (s : string) :
  String.length (drop_chars k s) <= String.length s.
Proof.
  revert k; induction s as [|c s IH]; intros [|k]; cbn; try lia.
  specialize (IH k). lia.
Qed.

(** Replacing a text by itself changes nothing. *)
Lemma replace_same (old s : string) : PyStr.replace old old s = s.
Proof.
  unfold PyStr.replace. destruct old as [|c0 old0].
  - induction s as [|c s IH]; [reflexivity|].
    change (String c (PyStr.replace_empty "" s) = String c s). now rewrite IH.
  - set (old := String c0 old0).
    assert (H : forall n u, String.length u <= n -> PyStr.replace_from 0 old old u = u).
    { induction n as [|n IH]; intros [|c u] Hlen; try reflexivity; [cbn in Hlen; lia|].
      cbn [PyStr.replace_from]. destruct (String.prefix old (String c u)) eqn:Hp.
      - rewrite replace_from_drop.
        pose proof (prefix_drop old (String c u) Hp) as Hs.
        change (drop_chars (String.length old) (String c u))
          with (drop_chars (String.length old0) u) in Hs.
        change (String.length old - 1) with (String.length old0 - 0).
        rewrite Nat.sub_0_r. rewrite IH.
        + now rewrite <- Hs.
        + pose proof (drop_chars_length (String.length old0) u). cbn in Hlen. lia.
      - rewrite IH; [reflexivity | cbn in Hlen; lia]. }
    now apply (H (String.length s)).
Qed.

Lemma alter_same_at {A : Type} (g : A -> A) (l : list A) (i : nat) (x : A) :
  l !! i = Some x -> g x = x -> alter g i l = l.
Proof.
  intros H Hg. rewrite (alter_middle g l i x H), Hg. now apply take_drop_middle.
Qed.

Lemma set_value_same (t : list Node) (i j : nat) (item : option nat) (v : string) :
  node_at t (StepRef i j item) ≫= string_value = Some v ->
  set_value t (StepRef i j item) v = t.
Proof.
  intros H. destruct (node_at_inv _ _ _ _ _ H)
    as (f & d & c & a & sep & rest & Hf & Hd & Hc & Ha & Hlit).
  cbn [set_value]. unfold func_at in Hf.
  destruct (t !! i) as [[f0|ty text]|] eqn:Hi; try discriminate.
  inversion Hf; subst f0.
  apply (alter_same_at _ t i (Def f) Hi). cbn [on_def]. f_equal.
  rewrite (alter_same_at _ (decorators f) j d Hd); [now destruct f|].
  unfold on_first_arg. rewrite Hc. destruct c as [cl cv]. cbn in Ha. subst cv.
  destruct d as [dn dd dc de]. cbn in Hc. subst dc.
  destruct a as [tg av]. cbn [name dotted dec_end target arg_value fst snd] in *.
  assert (Hg : match item with
               | None => set_string_value v
               | Some k => on_item k (set_string_value v)
               end av = av).
  { destruct item as [k|].
    - destruct av as [|lead items py b|]; try discriminate. cbn [on_item].
      destruct (items !! k) as [[x s]|] eqn:Hk; [|discriminate].
      rewrite (alter_same_at _ items k (x, s) Hk); [reflexivity|].
      cbn in *. destruct x; try discriminate. inversion Hlit; now subst.
    - cbn in Hlit. destruct av; try discriminate. inversion Hlit; now subst. }
  now rewrite Hg.
Qed.

(** X13. Refactoring a step to the text it already has, with the move
    list that keeps the parameters, changes nothing: the call returns the one
    step-text edit, whose replacement is the literal as it stands, and the
    object, hence its code, is exactly as before. *)
Theorem refactor_to_same_text_is_a_no_op
    (self : RedbaronPythonFile) (text : string)
    (r : NodeRef) (i : nat) (l : list string) (v : string) (f : DefNode) :
  _find_step_node self text = (inr (Some (r, i)), l) ->
  node_at (py_tree self) r ≫= string_value = Some v ->
  func_at (py_tree self) i = Some f ->
  refactor_step self text text (identity_moves (length (arguments f))) =
    (inr [(calculate_span (py_tree self) r, v)], self, l).
Proof.
  intros Hfind Hv Hf.
  destruct (find_step_node_sound _ _ _ _ _ Hfind) as (f0 & n & j & item & _ & -> & _).
  rewrite (refactor_step_found _ _ _ _ _ _ _ _ _ Hfind Hv Hf). cbn zeta.
  rewrite params_unmoved_identity, replace_same, (set_value_same _ _ _ _ _ Hv).
  now destruct self.
Qed.

Lemma refactor_to_same_text_is_a_no_op_witness :
  refactor_step Sample.file_f "a bar" "a bar" [0%Z; 1%Z] =
    (inr [({| startLine := 1; startCol := 16; endLine := 1; endCol := 23 |},
           PyStr.quoted "a bar")], Sample.file_f, []).
Proof.
  exact (refactor_to_same_text_is_a_no_op Sample.file_f "a bar" (StepRef 0 0 (Some 1)) 0 []
           (PyStr.quoted "a bar") Sample.def_f eq_refl eq_refl eq_refl).
Defined.

(** ** The spans of the edits *)

Lemma calculate_span_columns (t : list Node) (node : NodeRef) :
  (0 <= startCol (calculate_span t node))%Z /\ (0 <= endCol (calculate_span t node))%Z.
Proof.
  unfold calculate_span. destruct (absolute_bounding_box t node); cbn; lia.
Qed.

(** X14. Every edit [refactor_step] returns has a span whose columns are
    not negative, whatever the bounding boxes of the tree are, and there are
    at most two edits. *)
Theorem edit_spans_have_no_negative_column
    (self : RedbaronPythonFile) (old_text new_text : string) (move : list Z) :
  match fst (fst (refactor_step self old_text new_text move)) with
  | inr edits =>
      length edits <= 2 /\
      Forall (fun e => (0 <= startCol (fst e))%Z /\ (0 <= endCol (fst e))%Z) edits
  | inl _ => True
  end.
Proof.
  unfold refactor_step. cbv zeta.
  destruct (_find_step_node self old_text) as [[e|[[r i]|]] l]; cbn [fst snd]; auto.
  destruct (node_at (py_tree self) r ≫= string_value); cbn [fst snd]; auto.
  destruct (func_at _ i) as [f|]; cbn [fst snd]; auto.
  destruct (params_unmoved (arguments f) move); cbn [fst snd].
  - split; [cbn; lia|]. repeat constructor; apply calculate_span_columns.
  - destruct (new_params_loop _ _); cbn [fst snd]; auto.
    split; [cbn; lia|]. repeat constructor; apply calculate_span_columns.
Qed.

(** ** When parsing fails *)

Lemma substring_split (p k : nat) (s : string) :
  String.substring 0 (p + k) s = String.substring 0 p s +:+ String.substring p k s.
Proof.
  revert s; induction p as [|p IH]; intros s.
  - cbn [Nat.add]. destruct k, s; reflexivity.
  - destruct s as [|c s]; [reflexivity|].
    change (String c (String.substring 0 (p + k) s)
            = String c (String.substring 0 p s +:+ String.substring p k s)).
    now rewrite IH.
Qed.

Lemma prefix_app (a b : string) : String.prefix a (a +:+ b) = true.
Proof.
  induction a as [|c a IH]; [now destruct b|].
  change (String.prefix (String c a) (String c (a +:+ b)) = true).
  cbn. destruct (Ascii.ascii_dec c c); [exact IH | contradiction].
Qed.

Lemma substring_prefix (n : nat) (s : string) :
  String.prefix (String.substring 0 n s) s = true.
Proof.
  revert s; induction n as [|n IH]; intros [|c s]; try reflexivity.
  change (String.prefix (String c (String.substring 0 n s)) (String c s) = true).
  cbn. destruct (Ascii.ascii_dec c c); [apply IH | contradiction].
Qed.

(** The message [parse] logs for an exception. *)
Lemma parse_failure_message_shape (file_path : string) (ex : Exception) :
  exists shown,
    parse_failure_message file_path ex = "Failed to parse " +:+ file_path +:+ ": " +:+ shown /\
    String.prefix shown (exn_msg ex) = true /\
    (forall p, String.index 0 marker (exn_msg ex) = Some (S p) ->
       shown = String.substring 0 (S p) (exn_msg ex) +:+ marker) /\
    (String.index 0 marker (exn_msg ex) = None -> shown = exn_msg ex) /\
    (forall rest, exn_msg ex = marker +:+ rest -> shown = exn_msg ex).
Proof.
  unfold parse_failure_message, PyStr.find. cbv zeta.
  destruct (String.index 0 marker (exn_msg ex)) as [[|p]|] eqn:E.
  - exists (exn_msg ex). cbn [Z.of_nat Z.ltb Z.compare].
    repeat split; auto; try discriminate.
    rewrite <- (app_empty_r (exn_msg ex)) at 2. apply prefix_app.
  - exists (String.substring 0 (S p + String.length marker) (exn_msg ex)).
    assert (Hpos : (0 <? Z.of_nat (S p))%Z = true) by (apply Z.ltb_lt; lia).
    rewrite Hpos, Nat2Z.id. split; [reflexivity|]. split; [apply substring_prefix|].
    split; [|split].
    + intros p' Hp'. inversion Hp'; subst p'. rewrite substring_split.
      now rewrite (String.index_correct1 _ _ _ _ E).
    + discriminate.
    + intros rest Hrest. exfalso. rewrite Hrest in E.
      change (String.index 0 marker (marker +:+ rest))
        with (if String.prefix marker (marker +:+ rest) then Some 0
              else match String.index 0 marker
                           (drop_chars 1 (marker +:+ rest)) with
                   | Some n => Some (S n)
                   | None => None
                   end) in E.
      rewrite prefix_app in E. discriminate.
  - exists (exn_msg ex). cbn [Z.ltb Z.compare].
    repeat split; auto; try discriminate.
    rewrite <- (app_empty_r (exn_msg ex)) at 2. apply prefix_app.
Qed.

(** X15. [parse] never raises.  When the file cannot be read or RedBaron
    rejects the text, it returns no object and logs exactly one message,
    "Failed to parse <path>: " followed by a prefix of the exception's
    message: the message cut right after the first "<---- here" marker line
    when that marker occurs past the first character, and the whole message
    when the marker is absent or stands at the very start. *)
Theorem parse_failure_is_logged_and_trimmed
    (open_read : string -> Exception + string)
    (RedBaron : string -> Exception + list Node)
    (file_path : string) (content : option string) (ex : Exception) :
  match content with Some c => inr c | None => open_read file_path end = inl ex \/
  (exists T, match content with Some c => inr c | None => open_read file_path end = inr T /\
             RedBaron T = inl ex) ->
  exists shown,
    parse open_read RedBaron file_path content =
      (None, ["Failed to parse " +:+ file_path +:+ ": " +:+ shown]) /\
    String.prefix shown (exn_msg ex) = true /\
    (forall p, String.index 0 marker (exn_msg ex) = Some (S p) ->
       shown = String.substring 0 (S p) (exn_msg ex) +:+ marker) /\
    (String.index 0 marker (exn_msg ex) = None -> shown = exn_msg ex) /\
    (forall rest, exn_msg ex = marker +:+ rest -> shown = exn_msg ex).
Proof.
  intros Hfail.
  destruct (parse_failure_message_shape file_path ex) as (shown & Hmsg & Hrest).
  exists shown. split; [|exact Hrest]. unfold parse. cbv zeta.
  destruct Hfail as [-> | (T & -> & ->)]; now rewrite Hmsg.
Qed.

Lemma parse_failure_is_logged_and_trimmed_witness :
  parse Sample.one_file Sample.RedBaron_pass "step_impl.py" (Some "x = (") =
    (None, ["Failed to parse step_impl.py: Error, got an unexpected token"]).
Proof.
  destruct (parse_failure_is_logged_and_trimmed Sample.one_file Sample.RedBaron_pass
              "step_impl.py" (Some "x = (")
              {| exn_class := ParsingError; exn_msg := "Error, got an unexpected token" |})
    as (shown & Hp & _ & _ & Habsent & _).
  { right. exists "x = (". split; reflexivity. }
  rewrite Hp. now rewrite (Habsent eq_refl).
Defined.

(** ** Loading steps into the registry *)

Section Loading.

Variable open_read : string -> Exception + string.
Variable RedBaron : string -> Exception + list Node.
Variable os_walk : string -> list (string * list string * list string).

Lemma parse_file_path (path : string) (content : option string)
    (pf : RedbaronPythonFile) (l : list string) :
  parse open_read RedBaron path content = (Some pf, l) -> file_path pf = path /\ l = [].
Proof.
  unfold parse. cbv zeta.
  destruct (match content with Some c => inr c | None => open_read path end) as [e|c];
    [discriminate|].
  destruct (RedBaron c); [discriminate|]. intros H; inversion H. auto.
Qed.

Lemma load_steps_calls (pf : RedbaronPythonFile) :
  Forall (adds_for (file_path pf)) (snd (fst (load_steps pf))) /\
  length (snd (fst (load_steps pf))) = length (yielded (fst (iter_steps pf))) /\
  fst (fst (load_steps pf)) = raised (fst (iter_steps pf)).
Proof.
  unfold load_steps.
  pose proof (proj2 (discovery_accounts_for_every_function_aux pf)) as Hrec.
  destruct (iter_steps pf) as [g l]. cbn [fst snd] in *.
  split; [|split; [apply length_map | reflexivity]].
  apply List.Forall_forall. intros c Hc. apply in_map_iff in Hc as (fs & <- & Hin).
  rewrite List.Forall_forall in Hrec. destruct (Hrec fs Hin) as (i & f & Hfs).
  rewrite Hfs. cbn. unfold adds_for. eauto.
Qed.

Lemma load_file_calls (path : string) :
  Forall (adds_for path) (snd (fst (load_file open_read RedBaron path))).
Proof.
  unfold load_file.
  destruct (parse open_read RedBaron path None) as [[pf|] l] eqn:E; [|constructor].
  apply parse_file_path in E as [<- _].
  pose proof (proj1 (load_steps_calls pf)) as H.
  now destruct (load_steps pf) as [[e calls] l'].
Qed.

Lemma loaded_then_calls (P : RegistryCall -> Prop) (a b : Loaded) :
  Forall P (snd (fst a)) -> Forall P (snd (fst b)) ->
  Forall P (snd (fst (loaded_then a b))).
Proof.
  destruct a as [[[e|] ca] la], b as [[eb cb] lb]; cbn; auto.
  intros Ha Hb. apply Forall_app; auto.
Qed.

Lemma loaded_then_returned (a b : Loaded) :
  fst (fst (loaded_then a b)) = None ->
  fst (fst a) = None /\ fst (fst b) = None /\
  snd (fst (loaded_then a b)) = snd (fst a) ++ snd (fst b) /\
  snd (loaded_then a b) = snd a ++ snd b.
Proof.
  destruct a as [[[e|] ca] la], b as [[eb cb] lb]; cbn; [discriminate | auto].
Qed.

Lemma load_py_files_calls (paths : list string) :
  Forall (fun c => exists p, In p paths /\ adds_for p c)
         (snd (fst (load_py_files open_read RedBaron paths))).
Proof.
  induction paths as [|p paths IH]; [constructor|].
  cbn [load_py_files]. apply loaded_then_calls.
  - eapply Forall_impl; [apply load_file_calls|]. intros c Hc. exists p. split; [now left | auto].
  - eapply Forall_impl; [exact IH|]. intros c (q & Hq & Hc). exists q. split; [now right | auto].
Qed.

Lemma endswith_spec (suffix s : string) :
  endswith suffix s = true <-> exists stem, s = stem +:+ suffix.
Proof.
  split.
  - induction s as [|c s IH]; cbn [endswith].
    + destruct (String.eqb_spec suffix "") as [->|]; [|discriminate]. now exists "".
    + destruct (String.eqb_spec suffix (String c s)) as [->|]; [now exists ""|].
      intros H. destruct (IH H) as [stem ->]. now exists (String c stem).
  - intros [stem ->]. induction stem as [|c stem IH].
    + change ("" +:+ suffix) with suffix. destruct suffix; cbn [endswith];
        now rewrite String.eqb_refl.
    + change (String c stem +:+ suffix) with (String c (stem +:+ suffix)).
      cbn [endswith]. rewrite IH. now destruct (String.eqb _ _).
Qed.

Lemma py_files_spec (dirpath : string) (files : list string) (p : string) :
  In p (py_files dirpath files) <->
  exists stem, In (stem +:+ ".py") files /\ p = os_path_join dirpath (stem +:+ ".py").
Proof.
  unfold py_files. rewrite in_map_iff. split.
  - intros (f & <- & Hf). apply list_elem_of_In, list_elem_of_filter in Hf as [Hpy Hf].
    apply endswith_spec in Hpy as [stem ->]. exists stem. split; [|reflexivity].
    now apply list_elem_of_In.
  - intros (stem & Hin & ->). exists (stem +:+ ".py"). split; [reflexivity|].
    apply list_elem_of_In, list_elem_of_filter. split; [|now apply list_elem_of_In].
    apply endswith_spec. now exists stem.
Qed.

(** X17. [reload_steps] touches the registry only for a file it could
    parse.  When parsing fails it makes no registry call, so the steps
    registered for the file stay, and logs the failure.  When parsing
    succeeds its first call removes the steps of the path, and every call
    after it adds a step under that same path, one per record of the scan;
    if the scan raises, the removal and the additions made so far stand. *)
Theorem reload_steps_removes_then_adds (path : string) (content : option string) :
  match parse open_read RedBaron path content with
  | (None, l) => reload_steps open_read RedBaron path content = (None, [], l)
  | (Some pf, _) =>
      exists adds,
        reload_steps open_read RedBaron path content =
          (raised (fst (iter_steps pf)), remove_steps path :: adds, snd (iter_steps pf)) /\
        Forall (adds_for path) adds /\
        length adds = length (yielded (fst (iter_steps pf)))
  end.
Proof.
  unfold reload_steps.
  destruct (parse open_read RedBaron path content) as [[pf|] l] eqn:E; [|reflexivity].
  apply parse_file_path in E as [<- ->].
  destruct (load_steps_calls pf) as (Hadds & Hlen & Hraised).
  unfold load_steps in *. destruct (iter_steps pf) as [g lg]. cbn [fst snd] in *.
  eexists. split; [reflexivity|]. split; [exact Hadds | exact Hlen].
Qed.

(** X18. [load_files] only ever adds steps, and only for files whose
    name ends in ".py" and that the walk lists: every registry call it makes
    is an addition under the path of such a file joined to its directory. *)
Theorem load_files_registers_only_py_files (step_impl_dir : string) :
  Forall (fun c => exists dirpath dirs files stem,
            In (dirpath, dirs, files) (os_walk step_impl_dir) /\
            In (stem +:+ ".py") files /\
            adds_for (os_path_join dirpath (stem +:+ ".py")) c)
         (snd (fst (load_files open_read RedBaron os_walk step_impl_dir))).
Proof.
  unfold load_files. induction (os_walk step_impl_dir) as [|[[dirpath dirs] files] walk IH];
    [constructor|].
  cbn [load_files_loop]. apply loaded_then_calls.
  - eapply Forall_impl; [apply load_py_files_calls|].
    intros c (p & Hp & Hc). apply py_files_spec in Hp as (stem & Hin & ->).
    exists dirpath, dirs, files, stem. split; [now left | auto].
  - eapply Forall_impl; [exact IH|].
    intros c (d & ds & fs & stem & Hin & Hrest). exists d, ds, fs, stem.
    split; [now right | exact Hrest].
Qed.

Lemma load_py_files_returned (paths : list string) :
  fst (fst (load_py_files open_read RedBaron paths)) = None ->
  snd (fst (load_py_files open_read RedBaron paths))
    = concat (map (fun p => snd (fst (load_file open_read RedBaron p))) paths) /\
  snd (load_py_files open_read RedBaron paths)
    = concat (map (fun p => snd (load_file open_read RedBaron p)) paths).
Proof.
  induction paths as [|p paths IH]; [auto|].
  cbn [load_py_files map concat]. intros H.
  apply loaded_then_returned in H as (_ & Hb & -> & ->).
  destruct (IH Hb) as [-> ->]. auto.
Qed.

(** X19. When [load_files] returns, it has loaded every ".py" file of
    the walk, in the order of the walk: its registry calls are those of the
    single files one after the other, and so are its log messages.  A file
    that does not parse adds its one message and no call. *)
Theorem load_files_loads_every_py_file_in_order (step_impl_dir : string) :
  fst (fst (load_files open_read RedBaron os_walk step_impl_dir)) = None ->
  snd (fst (load_files open_read RedBaron os_walk step_impl_dir))
    = concat (map (fun p => snd (fst (load_file open_read RedBaron p)))
                  (walked_py_files (os_walk step_impl_dir))) /\
  snd (load_files open_read RedBaron os_walk step_impl_dir)
    = concat (map (fun p => snd (load_file open_read RedBaron p))
                  (walked_py_files (os_walk step_impl_dir))) /\
  (forall p ex,
     match open_read p with inl e => Some e | inr T =>
       match RedBaron T with inl e => Some e | inr _ => None end end = Some ex ->
     load_file open_read RedBaron p = (None, [], [parse_failure_message p ex])).
Proof.
  intros H. unfold load_files in *. split; [|split].
  - induction (os_walk step_impl_dir) as [|[[dirpath dirs] files] walk IH]; [reflexivity|].
    cbn [load_files_loop] in *. apply loaded_then_returned in H as (Ha & Hb & -> & _).
    unfold walked_py_files. cbn [map concat fst snd].
    rewrite map_app, concat_app.
    rewrite (proj1 (load_py_files_returned _ Ha)). f_equal. exact (IH Hb).
  - induction (os_walk step_impl_dir) as [|[[dirpath dirs] files] walk IH]; [reflexivity|].
    cbn [load_files_loop] in *. apply loaded_then_returned in H as (Ha & Hb & _ & ->).
    unfold walked_py_files. cbn [map concat fst snd].
    rewrite map_app, concat_app.
    rewrite (proj2 (load_py_files_returned _ Ha)). f_equal. exact (IH Hb).
  - intros p ex Hex. unfold load_file, parse. cbv zeta.
    destruct (open_read p) as [e|T]; [now inversion Hex|].
    destruct (RedBaron T) as [e|t]; [now inversion Hex | discriminate].
Qed.

End Loading.

Lemma load_files_loads_every_py_file_in_order_witness :
  load_files (open_read_fs SampleDisk.disk) SampleDisk.RedBaron_g SampleDisk.walk "steps" =
    (None,
     [add_step (PyString "old") "g" "steps/a.py" (inr (calculate_span_closure (FuncRef 0)))],
     ["Failed to parse steps/b.py: Error, got an unexpected token"]).
Proof.
  assert (Hret : fst (fst (load_files (open_read_fs SampleDisk.disk) SampleDisk.RedBaron_g
                             SampleDisk.walk "steps")) = None) by (vm_compute; reflexivity).
  destruct (load_files_loads_every_py_file_in_order (open_read_fs SampleDisk.disk)
              SampleDisk.RedBaron_g SampleDisk.walk "steps" Hret) as (Hcalls & Hlog & _).
  destruct (load_files (open_read_fs SampleDisk.disk) SampleDisk.RedBaron_g
              SampleDisk.walk "steps") as [[e calls] l].
  cbn [fst snd] in *. subst e calls l. vm_compute. reflexivity.
Defined.

(** ** When the location scan finds a match *)

(** X20. A match is found.  Take the first function the scan reaches
    without an earlier match or exception whose step decorator has a single
    argument.  If the argument resolves to the text, the scan returns the
    reference to that argument; if it resolves to a list containing the text
    and the list literal has an item at the position of the first equal
    element, the scan returns the reference to that item. *)
Theorem first_match_is_found
    (self : RedbaronPythonFile) (text : string) (pre post : list Node) (f : DefNode)
    (j : nat) (d : DecoratorNode) (c : CallNode) (a : CallArgumentNode * string)
    (v : PyValue) (lpre : list string) :
  py_tree self = pre ++ Def f :: post ->
  first_step_decorator 0 (decorators f) = Some (j, d) ->
  call d = Some c ->
  call_value c = [a] ->
  to_python (arg_value (fst a)) = inr v ->
  _find_step_node (with_tree self pre) text = (inr None, lpre) ->
  (v = PyString text ->
   _find_step_node self text = (inr (Some (StepRef (length pre) j None, length pre)), lpre))
  /\
  (forall items lead nodes py b,
     v = PyList items -> py_in text items = true ->
     arg_value (fst a) = ListNode lead nodes py b ->
     py_index text items < length nodes ->
     _find_step_node self text =
       (inr (Some (StepRef (length pre) j (Some (py_index text items)), length pre)), lpre)).
Proof.
  intros Ht Hd Hc Ha Hv Hpre.
  assert (Hpre' : find_step_loop self text (step_func_decorators_from 0 pre) = (inr None, lpre)).
  { rewrite <- Hpre. symmetry. now apply find_step_loop_ext. }
  assert (Harg : first_arg d = (inr (arg_value (fst a)), [])).
  { unfold first_arg. now rewrite Hc, Ha. }
  split.
  - intros ->. unfold _find_step_node.
    rewrite (scan_split self pre post f j d Ht Hd), (find_step_loop_app _ _ _ _ _ Hpre').
    cbn [find_step_loop].
    rewrite (step_decorator_args_resolved self d c a (PyString text) Hc Ha Hv eq_refl), Harg.
    cbn [bind py_eq_str]. rewrite String.eqb_refl. cbn. now rewrite app_nil_r.
  - intros items lead nodes py b -> Hin Hnode Hlen. unfold _find_step_node.
    rewrite (scan_split self pre post f j d Ht Hd), (find_step_loop_app _ _ _ _ _ Hpre').
    rewrite (find_step_loop_head_list self text (length pre) j f d _ items
               (arg_value (fst a)) (StepRef (length pre) j (Some (py_index text items)))).
    + cbn [fst snd]. now rewrite app_nil_r.
    + now apply (step_decorator_args_resolved self d c a).
    + exact Harg.
    + exact Hin.
    + rewrite Hnode. cbn [getitem]. apply Nat.ltb_lt in Hlen. now rewrite Hlen.
Qed.

Lemma first_match_is_found_witness :
  _find_step_node Sample.file_g "old" = (inr (Some (StepRef 0 0 None, 0)), []).
Proof.
  exact (proj1 (first_match_is_found Sample.file_g "old" [] [] Sample.def_g 0
                  (Sample.step_decorator
                     [(Sample.positional (Sample.str_lit "old" (Sample.box_ 1 7 1 11)), "")])
                  {| call_lead := "";
                     call_value :=
                       [(Sample.positional (Sample.str_lit "old" (Sample.box_ 1 7 1 11)), "")] |}
                  (Sample.positional (Sample.str_lit "old" (Sample.box_ 1 7 1 11)), "")
                  (PyString "old") [] eq_refl eq_refl eq_refl eq_refl eq_refl eq_refl)
           eq_refl).
Defined.
